(** * NewsAIGenerate: the record store and the editing-session controller

    A shallow embedding of [storage.py], [gemini_service.py] and
    [handlers.py].  Python objects become records, [dict]s become finite
    maps, [try]/[except] becomes a state-and-exception monad, and the
    three things outside the program (the snapshot file, the Gemini
    backend and the Telegram transport) become an explicit environment.

    Conventions.
    - A Python [str] is a [string] holding its UTF-8 bytes; a [bytes] or
      [BytesIO] value is a [list byte].  Every read of a [BytesIO] in the
      source is preceded by [seek(0)], so the stream position is not kept.
    - [str.strip] and [int] read whitespace and decimal digits as Python
      does, over the code points of the string.
    - [time.sleep] and [asyncio.sleep] only delay; they are left out. *)

From Stdlib Require Import ZArith NArith List String Ascii Lia Decimal DecimalString DecimalZ DecimalPos.
From Stdlib Require Import Init.Byte Strings.Byte.
From stdpp Require Import gmap strings list.

Open Scope string_scope.
Set Warnings "-register-all".

(** ** Python values and exceptions *)

(** What [json.load] can return, which is also what a dynamically typed
    field of a record can hold.  An object lists its items in order; a
    number with a fraction or an exponent is the finite double
    [mantissa * 2 ^ exponent]. *)
Inductive json : Type :=
| JNull
| JBool (b : bool)
| JInt (z : Z)
| JFloat (mantissa exponent : Z)
| JStr (s : string)
| JArr (items : list json)
| JObj (items : list (string * json)).

Abbreviation pyval := json.

(** An exception: its class name and its [str()]. *)
Inductive exn : Type := Exn (cls msg : string).

Definition str_exn (e : exn) : string := let 'Exn _ m := e in m.

(** Truth value of a Python object, as [if x:] and [x or y] test it. *)
Definition truthy (v : pyval) : bool :=
  match v with
  | JNull => false
  | JBool b => b
  | JInt z => negb (z =? 0)%Z
  | JFloat m _ => negb (m =? 0)%Z
  | JStr s => negb (String.eqb s "")
  | JArr l => match l with [] => false | _ => true end
  | JObj l => match l with [] => false | _ => true end
  end.

Definition py_or (a b : pyval) : pyval := if truthy a then a else b.

(** [type(v).__name__]. *)
Definition type_name (v : pyval) : string :=
  match v with
  | JNull => "NoneType"
  | JBool _ => "bool"
  | JInt _ => "int"
  | JFloat _ _ => "float"
  | JStr _ => "str"
  | JArr _ => "list"
  | JObj _ => "dict"
  end.

Definition of_opt_str (o : option string) : pyval :=
  match o with Some s => JStr s | None => JNull end.

(** [dict.get] on the items of a [dict] with [str] keys. *)
Fixpoint dict_get {V} (k : string) (items : list (string * V)) : option V :=
  match items with
  | [] => None
  | (k', v) :: rest => if String.eqb k k' then Some v else dict_get k rest
  end.

(** ** Characters of a [str]

    A [str] is a sequence of code points and is held here as its UTF-8
    bytes.  [chars] cuts the bytes into characters, each the one to four
    bytes that encode one code point, and [code_point] reads the code point
    back.  A byte that cannot start a character stands for U+FFFD. *)

Definition utf8_width (c : ascii) : nat :=
  let n := N_of_ascii c in
  if (n <? 192)%N then 1 else if (n <? 224)%N then 2 else if (n <? 240)%N then 3 else 4.

Fixpoint drop_bytes (n : nat) (s : string) : string :=
  match n, s with
  | S n, String _ r => drop_bytes n r
  | _, _ => s
  end.

Fixpoint chars_fuel (fuel : nat) (s : string) : list string :=
  match fuel, s with
  | S fuel, String c _ =>
      let w := utf8_width c in
      substring 0 w s :: chars_fuel fuel (drop_bytes w s)
  | _, _ => []
  end.

Definition chars (s : string) : list string := chars_fuel (String.length s) s.

Definition code_point (ch : string) : N :=
  match ch with
  | EmptyString => 0
  | String c r =>
      let n := N_of_ascii c in
      let lead := if n <? 128 then n else if n <? 192 then 0xFFFD
                  else if n <? 224 then n mod 32
                  else if n <? 240 then n mod 16 else n mod 8 in
      fold_left (λ acc b, acc * 64 + N_of_ascii b mod 64) (list_ascii_of_string r) lead
  end%N.

(** [str.isspace] for one character ([_PyUnicode_IsWhitespace]). *)
Definition py_isspace (cp : N) : bool :=
  ((9 <=? cp) && (cp <=? 13) || (28 <=? cp) && (cp <=? 32) ||
   (cp =? 0x85) || (cp =? 0xA0) || (cp =? 0x1680) ||
   (0x2000 <=? cp) && (cp <=? 0x200A) ||
   (cp =? 0x2028) || (cp =? 0x2029) || (cp =? 0x202F) || (cp =? 0x205F) ||
   (cp =? 0x3000))%N.

(** The code points of the digits zero of the decimal digits of Unicode 14,
    the version CPython 3.11 carries; the nine other digits follow each. *)
Definition decimal_zeros : list N :=
  [0x30; 0x660; 0x6f0; 0x7c0; 0x966; 0x9e6; 0xa66; 0xae6;
   0xb66; 0xbe6; 0xc66; 0xce6; 0xd66; 0xde6; 0xe50; 0xed0;
   0xf20; 0x1040; 0x1090; 0x17e0; 0x1810; 0x1946; 0x19d0; 0x1a80;
   0x1a90; 0x1b50; 0x1bb0; 0x1c40; 0x1c50; 0xa620; 0xa8d0; 0xa900;
   0xa9d0; 0xa9f0; 0xaa50; 0xabf0; 0xff10; 0x104a0; 0x10d30; 0x11066;
   0x110f0; 0x11136; 0x111d0; 0x112f0; 0x11450; 0x114d0; 0x11650; 0x116c0;
   0x11730; 0x118e0; 0x11950; 0x11c50; 0x11d50; 0x11da0; 0x16a60; 0x16ac0;
   0x16b50; 0x1d7ce; 0x1d7d8; 0x1d7e2; 0x1d7ec; 0x1d7f6; 0x1e140; 0x1e2f0;
   0x1e950; 0x1fbf0]%N.

(** [Py_UNICODE_TODECIMAL]. *)
Definition py_todecimal (cp : N) : option N :=
  (λ zero, cp - zero)%N <$>
    find (λ zero, (zero <=? cp) && (cp <? zero + 10))%N decimal_zeros.

(** ** [str.strip], [repr(str)], [str(int)] and [int(str)] *)

Fixpoint lstrip_chars (l : list string) : list string :=
  match l with
  | ch :: r => if py_isspace (code_point ch) then lstrip_chars r else l
  | [] => []
  end.

Definition py_lstrip (s : string) : string :=
  String.concat "" (lstrip_chars (chars s)).

Definition py_rstrip (s : string) : string :=
  String.concat "" (rev (lstrip_chars (rev (chars s)))).

Definition py_strip (s : string) : string :=
  String.concat "" (rev (lstrip_chars (rev (lstrip_chars (chars s))))).

Definition quote : ascii := "'".
Definition double_quote : ascii := ascii_of_nat 34.
Definition backslash : ascii := ascii_of_nat 92.

Definition hex_digit (n : N) : ascii :=
  default "0"%char (String.get (N.to_nat n) "0123456789abcdef").

(** One character of [repr(s)] for a [str] written between [q]s.  The
    characters outside ASCII are taken to be printable, which [repr]
    copies. *)
Definition repr_char (q c : ascii) : string :=
  let n := N_of_ascii c in
  if Ascii.eqb c q || Ascii.eqb c backslash then String backslash (String c "")
  else if (n =? 9)%N then String backslash "t"
  else if (n =? 10)%N then String backslash "n"
  else if (n =? 13)%N then String backslash "r"
  else if ((n <? 32) || (n =? 127))%N
    then String backslash (String "x" (String (hex_digit (n / 16))
           (String (hex_digit (n mod 16)) "")))
  else String c "".

Definition contains (c : ascii) (s : string) : bool :=
  existsb (Ascii.eqb c) (list_ascii_of_string s).

(** [repr(s)]: double quotes when [s] has a single quote and no double
    quote, single quotes otherwise. *)
Definition py_repr (s : string) : string :=
  let q := if contains quote s && negb (contains double_quote s)
           then double_quote else quote in
  String q (String.concat "" (repr_char q <$> list_ascii_of_string s)
            +:+ String q "").

(** [str(n)] for an [int]: decimal digits, a minus sign when negative.
    Chat ids are far below the 4300 digits at which [str] and [int] refuse
    to convert. *)
Definition py_str_int (z : Z) : string := NilZero.string_of_int (Z.to_int z).

(** [_PyUnicode_TransformDecimalAndSpaceToASCII], by which [int] reads
    the decimal digits and the whitespace of every script: ASCII is
    copied, whitespace becomes a space, a decimal digit its ASCII digit,
    and the first character that is none of these ends the result with a
    question mark. *)
Fixpoint transform_chars (l : list string) : string :=
  match l with
  | [] => ""
  | ch :: rest =>
      let cp := code_point ch in
      if (cp <? 127)%N then ch +:+ transform_chars rest
      else if py_isspace cp then String " " (transform_chars rest)
      else
        match py_todecimal cp with
        | Some d => String (ascii_of_N (48 + d)) (transform_chars rest)
        | None => "?"
        end
  end.

Definition is_ascii (s : string) : bool :=
  forallb (fun c => (N_of_ascii c <? 128)%N) (list_ascii_of_string s).

Definition to_ascii_decimal (s : string) : string :=
  if is_ascii s then s else transform_chars (chars s).

(** Whitespace as [PyLong_FromString] skips it ([Py_ISSPACE]). *)
Definition c_isspace (c : ascii) : bool :=
  let n := N_of_ascii c in
  ((9 <=? n) && (n <=? 13) || (n =? 32))%N.

Fixpoint skip_spaces (s : string) : string :=
  match s with
  | String c r => if c_isspace c then skip_spaces r else s
  | EmptyString => EmptyString
  end.

Definition digit_val (c : ascii) : option Z :=
  let n := N_of_ascii c in
  if ((48 <=? n) && (n <=? 57))%N then Some (Z.of_N n - 48)%Z else None.

(** The digits of a base-10 literal and what follows them.  A single
    underscore may separate two digits; after the last digit only
    whitespace may come.  [prev] tells whether the previous character was
    a digit. *)
Fixpoint digits_val (acc : Z) (prev : bool) (s : string) : option Z :=
  match s with
  | EmptyString => if prev then Some acc else None
  | String c r =>
      match digit_val c with
      | Some d => digits_val (10 * acc + d)%Z true r
      | None =>
          if Ascii.eqb c "_" then
            if prev then digits_val acc false r else None
          else
            if prev && String.eqb (skip_spaces s) "" then Some acc else None
      end
  end.

(** [PyLong_FromString] in base 10, after the leading whitespace: an
    optional sign, then the digits. *)
Definition int_literal (t : string) : option Z :=
  match t with
  | String "-" r => Z.opp <$> digits_val 0 false r
  | String "+" r => digits_val 0 false r
  | _ => digits_val 0 false t
  end.

(** [int(s)] for a [str].  [None] stands for [ValueError]. *)
Definition py_int (s : string) : option Z :=
  int_literal (skip_spaces (to_ascii_decimal s)).

(** ** [base64.b64encode] and [base64.b64decode] *)

Definition table_b2a_base64 : string :=
  "ABCDEFGHIJKLMNOPQRSTUVWXYZabcdefghijklmnopqrstuvwxyz0123456789+/".

Definition b2a (n : N) : ascii :=
  match String.get (N.to_nat n) table_b2a_base64 with
  | Some c => c
  | None => "="%char
  end.

Definition a2b (c : ascii) : option N :=
  let n := N_of_ascii c in
  (if (65 <=? n) && (n <=? 90) then Some (n - 65)
   else if (97 <=? n) && (n <=? 122) then Some (n - 71)
   else if (48 <=? n) && (n <=? 57) then Some (n + 4)
   else if n =? 43 then Some 62
   else if n =? 47 then Some 63
   else None)%N.

(** Three bytes give four characters; a last group of one or two bytes is
    padded with [=]. *)
Fixpoint b64encode (data : list byte) : string :=
  match data with
  | [] => EmptyString
  | [x] =>
      let a := Byte.to_N x in
      String (b2a (a / 4)) (String (b2a (a mod 4 * 16)) "==")
  | [x; y] =>
      let a := Byte.to_N x in
      let b := Byte.to_N y in
      String (b2a (a / 4)) (String (b2a (a mod 4 * 16 + b / 16))
        (String (b2a (b mod 16 * 4)) "="))
  | x :: y :: z :: rest =>
      let a := Byte.to_N x in
      let b := Byte.to_N y in
      let c := Byte.to_N z in
      String (b2a (a / 4)) (String (b2a (a mod 4 * 16 + b / 16))
        (String (b2a (b mod 16 * 4 + c / 64)) (String (b2a (c mod 64))
          (b64encode rest))))
  end%N.

(** A value stored into an [unsigned char]. *)
Definition byte_of_N (n : N) : byte :=
  match Byte.of_N (n mod 256) with Some b => b | None => x00 end.

Definition emit (b : byte) (r : exn + list byte) : exn + list byte :=
  match r with inr bs => inr (b :: bs) | inl e => inl e end.

(** The decoding loop of [binascii.a2b_base64] without [strict_mode]:
    characters outside the alphabet are skipped, [quad_pos] counts the
    characters of the current group, [leftchar] holds the bits not yet
    written, [written] counts the bytes written so far, and a complete
    run of padding ends the input.  The shifts and masks of the loop are
    written as multiplications, quotients and remainders. *)
Fixpoint a2b_base64 (s : string) (quad_pos : nat) (leftchar : N) (pads : nat)
    (written : nat) : exn + list byte :=
  match s with
  | EmptyString =>
      match quad_pos with
      | 0 => inr []
      | 1 => inl (Exn "binascii.Error"
                 ("Invalid base64-encoded string: number of data characters (" +:+
                  py_str_int (Z.of_nat (written / 3 * 4 + 1)) +:+
                  ") cannot be 1 more than a multiple of 4"))
      | _ => inl (Exn "binascii.Error" "Incorrect padding")
      end
  | String c rest =>
      if Ascii.eqb c "=" then
        if (2 <=? quad_pos)%nat then
          if (4 <=? quad_pos + S pads)%nat then inr []
          else a2b_base64 rest quad_pos leftchar (S pads) written
        else a2b_base64 rest quad_pos leftchar pads written
      else
        match a2b c with
        | None => a2b_base64 rest quad_pos leftchar pads written
        | Some this_ch =>
            match quad_pos with
            | 0%nat => a2b_base64 rest 1 this_ch 0 written
            | 1%nat => emit (byte_of_N (leftchar * 4 + this_ch / 16))
                     (a2b_base64 rest 2 (this_ch mod 16) 0 (S written))
            | 2%nat => emit (byte_of_N (leftchar * 16 + this_ch / 4))
                     (a2b_base64 rest 3 (this_ch mod 4) 0 (S written))
            | _ => emit (byte_of_N (leftchar * 64 + this_ch))
                     (a2b_base64 rest 0 0 0 (S written))
            end%N
        end
  end.

(** [base64.b64decode(v)] for a value read from JSON: a [str] must be
    ASCII, anything else is not bytes-like. *)
Definition b64decode (v : pyval) : exn + list byte :=
  match v with
  | JStr s =>
      if is_ascii s then a2b_base64 s 0 0 0 0
      else inl (Exn "ValueError"
                 "string argument should contain only ASCII characters")
  | _ => inl (Exn "TypeError"
               ("argument should be a bytes-like object or ASCII string, not '" +:+
                type_name v +:+ "'"))
  end.

(** ** State and exceptions

    A computation reads and writes a state and either returns a value or
    raises.  What it wrote before raising stays written, as in Python. *)

Definition M (S A : Type) : Type := S → (exn + A) * S.

Global Instance M_ret {S} : MRet (M S) := λ A a s, (inr a, s).

Global Instance M_bind {S} : MBind (M S) := λ A B k m s,
  match m s with
  | (inr a, s') => k a s'
  | (inl e, s') => (inl e, s')
  end.

Definition raise {S A} (e : exn) : M S A := λ s, (inl e, s).

(** [try: body / except Exception as e: handler]. *)
Definition try_except {S A} (body : M S A) (handler : exn → M S A) : M S A :=
  λ s, match body s with
       | (inl e, s') => handler e s'
       | (inr a, s') => (inr a, s')
       end.

Definition gets {S A} (f : S → A) : M S A := λ s, (inr (f s), s).
Definition modify {S} (f : S → S) : M S unit := λ s, (inr tt, f s).
Definition lift {S A} (r : exn + A) : M S A := λ s, (r, s).

(** A part of the state, with the way to put it back. *)
Definition zoom {S T A} (view : S → T) (update : T → S → S) (m : M T A) : M S A :=
  λ s, let '(r, t) := m (view s) in (r, update t s).

Global Instance sum_ret : MRet (sum exn) := λ A a, inr a.
Global Instance sum_bind : MBind (sum exn) := λ A B k r,
  match r with inr a => k a | inl e => inl e end.

(** [for x in xs: body]; the body answers [Some v] to [return v] and
    [None] to go on.  A loop that runs out returns nothing. *)
Fixpoint for_in {S A B} (xs : list A) (body : A → M S (option B)) : M S (option B) :=
  match xs with
  | [] => mret None
  | x :: rest =>
      r ← body x;
      match r with
      | Some v => mret (Some v)
      | None => for_in rest body
      end
  end.

(** ** The record store ([storage.py]) *)

Record PostData : Type := {
  text : pyval;
  image : list byte;
  chat_id : Z;
  original_text : pyval;
  message_id : pyval;
}.

Definition set_text (v : pyval) (p : PostData) : PostData :=
  {| text := v; image := image p; chat_id := chat_id p;
     original_text := original_text p; message_id := message_id p |}.

Definition set_image (b : list byte) (p : PostData) : PostData :=
  {| text := text p; image := b; chat_id := chat_id p;
     original_text := original_text p; message_id := message_id p |}.

(** The snapshot file as the program can observe it: missing; present but
    such that [open] or [json.load] raises; or holding what [json.load]
    returns.  A file that cannot be read may also resist [os.remove]. *)
Inductive file : Type :=
| Absent
| Unreadable (removable : bool)
| Content (data : json).

(** What becomes of an attempt to write the snapshot: the data is
    written; or [open] raises and the file stays as it was (no permission,
    no directory); or the file is opened, hence truncated, and the write
    raises before the end (no space left). *)
Inductive write_outcome : Type := Written | Refused | Torn.

(** The store: the state of the file at [self.storage_file], how the file
    system takes a write to it, and [self._posts]. *)
Record PostStorage : Type := {
  storage_file : file;
  disk : write_outcome;
  _posts : gmap Z PostData;
}.

Definition with_file (f : file) (s : PostStorage) : PostStorage :=
  {| storage_file := f; disk := disk s; _posts := _posts s |}.

Definition with_posts (f : gmap Z PostData → gmap Z PostData) (s : PostStorage)
  : PostStorage :=
  {| storage_file := storage_file s; disk := disk s; _posts := f (_posts s) |}.

Definition os_path_exists (f : file) : bool :=
  match f with Absent => false | _ => true end.

Definition os_remove : M PostStorage unit := λ s,
  match storage_file s with
  | Absent => (inl (Exn "FileNotFoundError" "No such file or directory"), s)
  | Unreadable false => (inl (Exn "OSError" "Operation not permitted"), s)
  | _ => (inr tt, with_file Absent s)
  end.

(** [open(...)] followed by [json.load(f)]. *)
Definition json_load : M PostStorage json := λ s,
  match storage_file s with
  | Content data => (inr data, s)
  | Unreadable _ => (inl (Exn "JSONDecodeError" "Expecting value"), s)
  | Absent => (inl (Exn "FileNotFoundError" "No such file or directory"), s)
  end.

(** [with open(self.storage_file, 'w', encoding='utf-8') as f:
    json.dump(data, f, ...)]. *)
Definition json_dump (data : json) : M PostStorage unit := λ s,
  match disk s with
  | Written => (inr tt, with_file (Content data) s)
  | Refused => (inl (Exn "PermissionError" "[Errno 13] Permission denied"), s)
  | Torn => (inl (Exn "OSError" "[Errno 28] No space left on device"),
             with_file (Unreadable true) s)
  end.

(** [len(data)] and then [data.items()]. *)
Definition dict_items (data : json) : exn + list (string * json) :=
  match data with
  | JObj items => inr items
  | JStr _ | JArr _ =>
      inl (Exn "AttributeError"
             ("'" +:+ type_name data +:+ "' object has no attribute 'items'"))
  | _ => inl (Exn "TypeError"
               ("object of type '" +:+ type_name data +:+ "' has no len()"))
  end.

(** [post_dict[k]] for a [str] [k].  The [str()] of a [KeyError] is the
    [repr] of the key. *)
Definition getitem (post_dict : json) (k : string) : exn + json :=
  match post_dict with
  | JObj items =>
      match dict_get k items with
      | Some v => inr v
      | None => inl (Exn "KeyError" (py_repr k))
      end
  | JStr _ => inl (Exn "TypeError" "string indices must be integers, not 'str'")
  | JArr _ => inl (Exn "TypeError" "list indices must be integers or slices, not str")
  | _ => inl (Exn "TypeError"
               ("'" +:+ type_name post_dict +:+ "' object is not subscriptable"))
  end.

(** [post_dict.get(k)]. *)
Definition get_or_none (post_dict : json) (k : string) : exn + json :=
  match post_dict with
  | JObj items => inr (default JNull (dict_get k items))
  | _ => inl (Exn "AttributeError"
               ("'" +:+ type_name post_dict +:+ "' object has no attribute 'get'"))
  end.

Definition int_of_str (s : string) : exn + Z :=
  match py_int s with
  | Some z => inr z
  | None => inl (Exn "ValueError"
                  ("invalid literal for int() with base 10: " +:+ py_repr s))
  end.

(** The JSON object written for one record. *)
Definition post_dict_of (p : PostData) : json :=
  JObj [("text", text p);
        ("original_text", original_text p);
        ("image_base64", JStr (b64encode (image p)));
        ("chat_id", JInt (chat_id p));
        ("message_id", message_id p)].

Definition dump_entry (kv : Z * PostData) : string * json :=
  (py_str_int kv.1, post_dict_of kv.2).

(** The store as [_save_to_disk] leaves it. *)
Definition flushed (s : PostStorage) : PostStorage :=
  match disk s with
  | Written => with_file (Content (JObj (dump_entry <$> map_to_list (_posts s)))) s
  | Refused => s
  | Torn => with_file (Unreadable true) s
  end.

(** A record as [_load_from_disk] rebuilds it from what [_save_to_disk]
    wrote: the chat id is the key of the entry, not its [chat_id] field. *)
Definition rekey (kv : Z * PostData) : PostData :=
  {| text := text kv.2; image := image kv.2; chat_id := kv.1;
     original_text := original_text kv.2; message_id := message_id kv.2 |}.

Module PostStorage.

(** The body of the loop of [_load_from_disk], up to the assignment. *)
Definition load_entry (chat_id_str : string) (post_dict : json)
  : exn + (Z * PostData) :=
  chat_id ← int_of_str chat_id_str;
  image_base64 ← getitem post_dict "image_base64";
  image_data ← b64decode image_base64;
  text ← getitem post_dict "text";
  original_text ← get_or_none post_dict "original_text";
  message_id ← get_or_none post_dict "message_id";
  mret (chat_id, {| text := text; image := image_data; chat_id := chat_id;
                    original_text := original_text;
                    message_id := message_id |}).

Fixpoint load_entries (items : list (string * json)) : M PostStorage unit :=
  match items with
  | [] => mret tt
  | (chat_id_str, post_dict) :: rest =>
      entry ← lift (load_entry chat_id_str post_dict);
      modify (with_posts <[entry.1 := entry.2]>);;
      load_entries rest
  end.

Definition _load_from_disk : M PostStorage unit :=
  present ← gets (λ s, os_path_exists (storage_file s));
  if present : bool then
    try_except
      (data ← json_load;
       items ← lift (dict_items data);
       load_entries items)
      (λ e, try_except os_remove (λ _, mret tt))
  else mret tt.

(** [PostStorage(storage_file)], in a file system in which the file is
    [f] and writes end as [d]: the constructor starts from an empty map
    and loads the snapshot. *)
Definition __init__ (f : file) (d : write_outcome) : (exn + unit) * PostStorage :=
  _load_from_disk {| storage_file := f; disk := d; _posts := ∅ |}.

(** The whole map is written as one object.  Building the object raises
    nothing for the values a record can hold; a write that raises is
    logged and nothing more. *)
Definition _save_to_disk : M PostStorage unit :=
  try_except
    (data ← gets (λ s, JObj (dump_entry <$> map_to_list (_posts s)));
     json_dump data)
    (λ e, mret tt).

Definition save (chat_id : Z) (post_data : PostData) : M PostStorage unit :=
  modify (with_posts <[chat_id := post_data]>);;
  _save_to_disk.

Definition get (chat_id : Z) : M PostStorage (option PostData) :=
  gets (λ s, _posts s !! chat_id).

Definition update_text (chat_id : Z) (new_text : pyval) : M PostStorage bool :=
  post ← get chat_id;
  match post with
  | Some post =>
      modify (with_posts <[chat_id := set_text new_text post]>);;
      _save_to_disk;;
      mret true
  | None => mret false
  end.

Definition update_image (chat_id : Z) (new_image : list byte) : M PostStorage bool :=
  post ← get chat_id;
  match post with
  | Some post =>
      modify (with_posts <[chat_id := set_image new_image post]>);;
      _save_to_disk;;
      mret true
  | None => mret false
  end.

Definition clear : M PostStorage unit :=
  modify (with_posts (λ _, ∅));;
  present ← gets (λ s, os_path_exists (storage_file s));
  if present : bool then os_remove else mret tt.

Definition delete (chat_id : Z) : M PostStorage unit :=
  present ← gets (λ s, bool_decide (is_Some (_posts s !! chat_id)));
  if present : bool then
    modify (with_posts (base.delete chat_id));;
    _save_to_disk
  else mret tt.

End PostStorage.

(** ** The outside world *)

(** An f-string: literal pieces and interpolated values. *)
Inductive piece : Type := Lit (s : string) | Val (v : pyval).
Abbreviation fstring := (list piece).

(** [keyboards.py]: rows of buttons, each a label and its callback data. *)
Module Keyboards.
Definition keyboard : Type := list (list (string * string)).

Definition get_post_actions_keyboard : keyboard :=
  [[("Отправить", "send")]; [("Отменить", "cancel")]; [("Изменить", "edit")]].

Definition get_edit_options_keyboard : keyboard :=
  [[("Изменить изображение", "edit_image")];
   [("Изменить текст", "edit_text")];
   [("« Назад", "back_to_preview")]].

Definition get_image_edit_keyboard : keyboard :=
  [[("Перегенерировать", "regenerate_image")];
   [("Загрузить своё", "upload_image")];
   [("« Назад", "back_to_edit")]].

Definition get_text_edit_keyboard : keyboard :=
  [[("AI редактирование", "ai_edit_text")];
   [("Вручную", "manual_edit_text")];
   [("« Назад", "back_to_edit")]].

Definition get_cancel_keyboard : keyboard :=
  [[("Отменить", "cancel_operation")]].
End Keyboards.

(** The message a transport call is made on. *)
Inductive message_ref : Type :=
| update_message      (* [update.message] *)
| processing_msg      (* the status message the handler sent *)
| query_message.      (* [query.message] *)

Inductive chat_ref : Type := Chat (id : Z) | TARGET_GROUP_ID.

(** The calls made on the Telegram transport. *)
Inductive tg_call : Type :=
| reply_text (on : message_ref) (text : fstring) (reply_markup : option Keyboards.keyboard)
| reply_photo (on : message_ref) (photo : list byte) (caption : pyval)
    (reply_markup : Keyboards.keyboard)
| send_photo (to : chat_ref) (photo : list byte) (caption : pyval)
    (reply_markup : option Keyboards.keyboard)
| edit_text (on : message_ref) (text : fstring)
| delete_message (on : message_ref)
| get_file
| download_as_bytearray
| answer (text : option fstring) (show_alert : bool)
| edit_message_caption (caption : fstring)
| edit_message_reply_markup (reply_markup : Keyboards.keyboard)
| edit_message_media (photo : list byte) (caption : pyval)
    (reply_markup : Keyboards.keyboard).

(** What is asked of the text model. *)
Inductive prompt : Type :=
| shorten_prompt (news_text : string)
| image_prompt_prompt (news_text : pyval)
| edit_prompt (instruction current_text : pyval).

Inductive text_outcome : Type :=
| text_raises (msg : string)
| text_response (text : string).      (* [""] when there is no text *)

(** The parts of an image response that [_generate_image_sync] looks at.
    [None] stands for a missing attribute, or for an [inline_data] that is
    falsy. *)
Inductive blob : Type := bytes_data (b : list byte) | str_data (s : string).
Record part : Type := { inline_data : option blob }.
Record candidate : Type := { content_parts : option (list part) }.
Record image_response : Type := {
  candidates : option (list candidate);
  parts : option (list part);
}.

Inductive image_outcome : Type :=
| image_raises (msg : string)
| image_returns (response : option image_response).   (* [None]: falsy *)

(** The eight bytes every PNG file starts with. *)
Definition png_signature : list byte := [x89; x50; x4e; x47; x0d; x0a; x1a; x0a].

(** The environment answers the n-th call of each kind.  [png_body] is
    what Pillow writes after the PNG signature for the placeholder. *)
Record Env : Type := {
  telegram : nat → option string;       (* [Some msg]: the call raises *)
  text_model : nat → text_outcome;
  image_model : nat → image_outcome;
  png_body : list byte;
}.

(** The bytes [img.save(image_bytes, format='PNG')] leaves in the buffer. *)
Definition placeholder_image (e : Env) : list byte :=
  (png_signature ++ png_body e)%list.

Record Message : Type := {
  msg_chat_id : Z;
  msg_text : option string;
  msg_caption : option string;
  msg_photo : list (list byte);     (* the downloadable sizes of the photo *)
  msg_video : bool;
}.

Record CallbackQuery : Type := {
  cq_data : string;
  cq_message : option Message;
}.

(** The state the handlers run in: [context.user_data], [self.storage],
    and the record of the calls made so far. *)
Record World : Type := {
  env : Env;
  user_data : gmap string bool;
  storage : PostStorage;
  sent : list tg_call;           (* transport calls that went through *)
  tg_calls : nat;                (* transport calls attempted *)
  text_log : list prompt;        (* requests to the text model *)
  image_log : list pyval;        (* requests to the image model *)
}.

Definition with_user_data (f : gmap string bool → gmap string bool) (w : World) : World :=
  {| env := env w; user_data := f (user_data w); storage := storage w;
     sent := sent w; tg_calls := tg_calls w; text_log := text_log w;
     image_log := image_log w |}.

Definition with_storage (s : PostStorage) (w : World) : World :=
  {| env := env w; user_data := user_data w; storage := s;
     sent := sent w; tg_calls := tg_calls w; text_log := text_log w;
     image_log := image_log w |}.

Definition with_sent (l : list tg_call) (n : nat) (w : World) : World :=
  {| env := env w; user_data := user_data w; storage := storage w;
     sent := l; tg_calls := n; text_log := text_log w;
     image_log := image_log w |}.

Definition with_text_log (l : list prompt) (w : World) : World :=
  {| env := env w; user_data := user_data w; storage := storage w;
     sent := sent w; tg_calls := tg_calls w; text_log := l;
     image_log := image_log w |}.

Definition with_image_log (l : list pyval) (w : World) : World :=
  {| env := env w; user_data := user_data w; storage := storage w;
     sent := sent w; tg_calls := tg_calls w; text_log := text_log w;
     image_log := l |}.

(** A transport call: it goes through and is recorded, or it raises. *)
Definition tg (call : tg_call) : M World unit := λ w,
  match telegram (env w) (tg_calls w) with
  | None => (inr tt, with_sent (sent w ++ [call])%list (S (tg_calls w)) w)
  | Some msg => (inl (Exn "TelegramError" msg), with_sent (sent w) (S (tg_calls w)) w)
  end.

Definition on_storage {A} (m : M PostStorage A) : M World A :=
  zoom storage with_storage m.

(** [context.user_data.get(k)] as a condition, [user_data[k] = True] and
    [user_data.pop(k, None)]. *)
Definition flag (k : string) : M World bool :=
  gets (λ w, default false (user_data w !! k)).
Definition set_flag (k : string) : M World unit :=
  modify (with_user_data <[k := true]>).
Definition pop_flag (k : string) : M World unit :=
  modify (with_user_data (delete k)).

(** [try: x = first; rest / except Exception as e: handler], where the
    handler uses [x], which is unbound when [first] raised. *)
Definition try_local {S A B} (first : M S A) (rest : A → M S B)
    (handler : option A → exn → M S B) : M S B :=
  λ s, match first s with
       | (inl e, s') => handler None e s'
       | (inr a, s') =>
           match rest a s' with
           | (inl e, s'') => handler (Some a) e s''
           | (inr b, s'') => (inr b, s'')
           end
       end.

(** ** The backend ([gemini_service.py]) *)

Definition nl : string := String (ascii_of_nat 10) EmptyString.

Fixpoint first_inline_data (ps : list part) : option blob :=
  match ps with
  | [] => None
  | p :: rest =>
      match inline_data p with
      | Some d => Some d
      | None => first_inline_data rest
      end
  end.

Definition blob_truthy (d : option blob) : bool :=
  match d with
  | Some (bytes_data b) => match b with [] => false | _ => true end
  | Some (str_data s) => negb (String.eqb s "")
  | None => false
  end.

(** [prompt[:100]] raises unless the value can be sliced. *)
Definition sliceable (v : pyval) : bool :=
  match v with JStr _ | JArr _ => true | _ => false end.

Definition not_sliceable (v : pyval) : exn :=
  match v with
  | JObj _ => Exn "TypeError" "unhashable type: 'slice'"
  | _ => Exn "TypeError" ("'" +:+ type_name v +:+ "' object is not subscriptable")
  end.

Module GeminiService.

(** [self.text_model.generate_content_async(prompt)], then
    [response.text]. *)
Definition generate_content_async (p : prompt) : M World string := λ w,
  let w' := with_text_log (text_log w ++ [p])%list w in
  match text_model (env w) (length (text_log w)) with
  | text_raises msg => (inl (Exn "GoogleAPIError" msg), w')
  | text_response t => (inr t, w')
  end.

(** One pass through the body of the retry loop that [shorten_news],
    [generate_image_prompt] and [edit_text_with_instruction] share word
    for word: [Some v] is [return v], [None] goes on to the next
    attempt. *)
Definition text_attempt (p : prompt) (attempt : nat) : M World (option pyval) :=
  try_except
    (response_text ← generate_content_async p;
     if String.eqb response_text ""
     then raise (Exn "ValueError" "Пустой ответ от модели")
     else mret (Some (JStr (py_strip response_text))))
    (λ e, if (attempt =? 2)%nat then raise e else mret None).

(** [for attempt in range(3): ...]; a loop that ran out would return
    [None]. *)
Definition text_attempts (p : prompt) : M World pyval :=
  r ← for_in (seq 0 3) (text_attempt p);
  mret (default JNull r).

Definition shorten_news (news_text : string) : M World pyval :=
  text_attempts (shorten_prompt news_text).

Definition generate_image_prompt (news_text : pyval) : M World pyval :=
  text_attempts (image_prompt_prompt news_text).

Definition edit_text_with_instruction (current_text instruction : pyval)
  : M World pyval :=
  text_attempts (edit_prompt instruction current_text).

(** Pillow draws a fixed picture and writes it as PNG; the argument is
    not used. *)
Definition _create_placeholder_image (text : pyval) : M World (list byte) :=
  gets (λ w, placeholder_image (env w)).

(** [self.image_model.generate_content(prompt)]. *)
Definition generate_content (p : pyval) : M World (option image_response) := λ w,
  let w' := with_image_log (image_log w ++ [p])%list w in
  match image_model (env w) (length (image_log w)) with
  | image_raises msg => (inl (Exn "GoogleAPIError" msg), w')
  | image_returns r => (inr r, w')
  end.

(** The search for [inline_data]: the first candidate's parts, then the
    response's own parts when that gave nothing usable. *)
Definition extract_image_data (response : image_response) : option blob :=
  let image_data :=
    match candidates response with
    | Some (candidate :: _) =>
        match content_parts candidate with
        | Some ps => first_inline_data ps
        | None => None
        end
    | _ => None
    end in
  if blob_truthy image_data then image_data
  else
    match parts response with
    | Some ps =>
        match first_inline_data ps with
        | Some d => Some d
        | None => image_data
        end
    | None => image_data
    end.

(** One pass through the body of the loop of [_generate_image_sync]. *)
Definition image_attempt (prompt : pyval) (attempt : nat)
  : M World (option (list byte)) :=
  try_except
    ((if sliceable prompt then mret tt
      else raise (not_sliceable prompt));;
     response ← generate_content prompt;
     match response with
     | None => raise (Exn "ValueError" "Пустой ответ от модели")
     | Some response =>
         let image_data := extract_image_data response in
         if negb (blob_truthy image_data) then
           placeholder ← _create_placeholder_image prompt;
           mret (Some placeholder)
         else
           image_data ← match image_data with
                        | Some (str_data s) => lift (b64decode (JStr s))
                        | Some (bytes_data b) => mret b
                        | None => mret []
                        end;
           match image_data with
           | [] =>
               placeholder ← _create_placeholder_image prompt;
               mret (Some placeholder)
           | _ => mret (Some image_data)
           end
     end)
    (λ e, if (attempt =? 2)%nat then
            placeholder ← _create_placeholder_image prompt;
            mret (Some placeholder)
          else mret None).

Definition _generate_image_sync (prompt : pyval) : M World (option (list byte)) :=
  for_in (seq 0 3) (image_attempt prompt).

Definition process_news_full (news_text : string) (message : option message_ref)
    (user_image : option (list byte)) : M World (pyval * option (list byte)) :=
  try_except
    (shortened_text ← shorten_news news_text;
     match message with
     | Some m => tg (edit_text m [Lit "Генерирую изображение"])
     | None => mret tt
     end;;
     image ← match user_image with
             | Some user_image => mret (Some user_image)
             | None =>
                 image_prompt ← generate_image_prompt shortened_text;
                 _generate_image_sync image_prompt
             end;
     mret (shortened_text, image))
    (λ e, raise e).

End GeminiService.

(** ** The controller ([handlers.py]) *)

(** [bool(x)] for an optional string. *)
Definition nonempty (o : option string) : bool :=
  match o with Some s => negb (String.eqb s "") | None => false end.

Definition not_found : fstring := [Lit "❌ Данные поста не найдены"].

(** [x.seek(0)] on what should be a [BytesIO]. *)
Definition seek0 (image : option (list byte)) : M World (list byte) :=
  match image with
  | Some b => mret b
  | None => raise (Exn "AttributeError" "'NoneType' object has no attribute 'seek'")
  end.

Definition empty_image : exn := Exn "ValueError" "Сгенерированное изображение пустое".

(** Reading [processing_msg] in an [except] branch entered before the
    assignment. *)
Definition unbound_processing_msg : exn :=
  Exn "UnboundLocalError"
    "cannot access local variable 'processing_msg' where it is not associated with a value".

(** [query.message.chat_id]. *)
Definition query_chat_id (query : CallbackQuery) : M World Z :=
  match cq_message query with
  | Some m => mret (msg_chat_id m)
  | None => raise (Exn "AttributeError" "'NoneType' object has no attribute 'chat_id'")
  end.

Module BotHandlers.
Import Keyboards.

Definition _send_post_preview (text : pyval) (image : list byte) : M World unit :=
  tg (reply_photo update_message image text get_post_actions_keyboard).

Definition _handle_manual_edit_input (message : Message) : M World unit :=
  let chat_id := msg_chat_id message in
  let new_text := of_opt_str (msg_text message) in
  pop_flag "waiting_for_manual_edit";;
  post_data ← on_storage (PostStorage.get chat_id);
  match post_data with
  | None => tg (reply_text update_message not_found None)
  | Some post_data =>
      on_storage (PostStorage.update_text chat_id new_text);;
      tg (delete_message update_message);;
      tg (send_photo (Chat chat_id) (image post_data) new_text
            (Some get_post_actions_keyboard))
  end.

Definition _handle_ai_edit_input (message : Message) : M World unit :=
  let chat_id := msg_chat_id message in
  let instruction := of_opt_str (msg_text message) in
  pop_flag "waiting_for_ai_edit";;
  post_data ← on_storage (PostStorage.get chat_id);
  match post_data with
  | None => tg (reply_text update_message not_found None)
  | Some post_data =>
      try_local
        (tg (reply_text update_message [Lit "⏳ Редактирую текст с помощью AI..."] None))
        (λ _,
           edited_text ← GeminiService.edit_text_with_instruction
                           (py_or (original_text post_data) (text post_data))
                           instruction;
           on_storage (PostStorage.update_text chat_id edited_text);;
           tg (delete_message update_message);;
           try_except (tg (delete_message processing_msg)) (λ _, mret tt);;
           tg (send_photo (Chat chat_id) (image post_data) edited_text
                 (Some get_post_actions_keyboard)))
        (λ bound e,
           let report := [Lit "❌ Ошибка при редактировании: "; Val (JStr (str_exn e))] in
           try_except
             (match bound with
              | Some _ => tg (edit_text processing_msg report)
              | None => raise unbound_processing_msg
              end)
             (λ _, tg (reply_text update_message report None)))
  end.

Definition _handle_image_upload (message : Message) : M World unit :=
  pop_flag "waiting_for_image";;
  match msg_photo message with
  | [] => tg (reply_text update_message [Lit "❌ Пожалуйста, отправьте изображение."] None)
  | first :: others =>
      try_except
        (tg get_file;;
         tg download_as_bytearray;;
         let user_image := List.last others first in
         let chat_id := msg_chat_id message in
         post_data ← on_storage (PostStorage.get chat_id);
         match post_data with
         | None => tg (reply_text update_message not_found None)
         | Some post_data =>
             on_storage (PostStorage.update_image chat_id user_image);;
             tg (delete_message update_message);;
             tg (send_photo (Chat chat_id) user_image (text post_data)
                   (Some get_post_actions_keyboard))
         end)
        (λ e, tg (reply_text update_message
                    [Lit "❌ Ошибка при обработке изображения: "; Val (JStr (str_exn e))]
                    None))
  end.

Definition handle_message (message : option Message) : M World unit :=
  match message with
  | None => mret tt
  | Some message =>
      manual ← flag "waiting_for_manual_edit";
      if manual : bool then _handle_manual_edit_input message else
      ai ← flag "waiting_for_ai_edit";
      if ai : bool then _handle_ai_edit_input message else
      img ← flag "waiting_for_image";
      if img : bool then _handle_image_upload message else
      let has_photo := match msg_photo message with [] => false | _ => true end in
      let has_text := nonempty (msg_text message) in
      let has_photo_with_caption := has_photo && nonempty (msg_caption message) in
      let has_video_with_caption := msg_video message && nonempty (msg_caption message) in
      if negb (has_text || has_photo_with_caption || has_video_with_caption)
      then mret tt
      else
        let chat_id := msg_chat_id message in
        let news_text :=
          default "" (if has_text then msg_text message else msg_caption message) in
        tg (reply_text update_message [Lit "⏳ Обрабатываю новость..."] None);;
        try_except
          (user_image ←
             match msg_photo message with
             | [photo] =>
                 if negb (msg_video message) then
                   tg get_file;;
                   tg download_as_bytearray;;
                   mret (Some photo)
                 else mret None
             | _ => mret None
             end;
           result ← GeminiService.process_news_full news_text
                      (Some processing_msg) user_image;
           let shortened_text := result.1 in
           image ← seek0 result.2;
           match image with
           | [] => raise empty_image
           | _ =>
               let post_data :=
                 {| text := shortened_text; image := image; chat_id := chat_id;
                    original_text := JStr news_text; message_id := JNull |} in
               on_storage (PostStorage.save chat_id post_data);;
               try_except (tg (delete_message processing_msg)) (λ _, mret tt);;
               _send_post_preview shortened_text image
           end)
          (λ e,
             let report :=
               [Lit ("❌ Ошибка при обработке новости:" +:+ nl);
                Val (JStr (str_exn e));
                Lit (nl +:+ nl +:+ "Попробуйте отправить новость еще раз.")] in
             try_except
               (tg (edit_text processing_msg report))
               (λ _, tg (reply_text update_message report None)))
  end.

Definition _handle_send (query : CallbackQuery) : M World unit :=
  chat_id ← query_chat_id query;
  post_data ← on_storage (PostStorage.get chat_id);
  match post_data with
  | None => tg (edit_message_caption not_found)
  | Some post_data =>
      try_except
        (tg (send_photo TARGET_GROUP_ID (image post_data) (text post_data) None);;
         tg (edit_message_caption
               [Lit ("✅ Пост успешно опубликован!" +:+ nl +:+ nl); Val (text post_data)]);;
         on_storage (PostStorage.delete chat_id))
        (λ e, tg (edit_message_caption
                    [Lit "❌ Ошибка при отправке: "; Val (JStr (str_exn e))]))
  end.

Definition _handle_cancel (query : CallbackQuery) : M World unit :=
  chat_id ← query_chat_id query;
  on_storage (PostStorage.delete chat_id);;
  tg (edit_message_caption [Lit "❌ Отменено"]).

Definition _handle_edit (query : CallbackQuery) : M World unit :=
  tg (edit_message_reply_markup get_edit_options_keyboard).

Definition _handle_edit_image (query : CallbackQuery) : M World unit :=
  tg (edit_message_reply_markup get_image_edit_keyboard).

Definition _handle_edit_text (query : CallbackQuery) : M World unit :=
  tg (edit_message_reply_markup get_text_edit_keyboard).

Definition _handle_regenerate_image (query : CallbackQuery) : M World unit :=
  chat_id ← query_chat_id query;
  post_data ← on_storage (PostStorage.get chat_id);
  match post_data with
  | None => tg (answer (Some [Lit "❌ Данные не найдены"]) true)
  | Some post_data =>
      tg (answer (Some [Lit "⏳ Генерирую новое изображение..."]) false);;
      try_local
        (tg (reply_text query_message [Lit "⏳ Генерирую новое изображение..."] None))
        (λ _,
           image_prompt ← GeminiService.generate_image_prompt (text post_data);
           new_image ← GeminiService._generate_image_sync image_prompt;
           new_image ← seek0 new_image;
           match new_image with
           | [] => raise empty_image
           | _ =>
               on_storage (PostStorage.update_image chat_id new_image);;
               tg (edit_message_media new_image (text post_data)
                     get_post_actions_keyboard);;
               try_except (tg (delete_message processing_msg)) (λ _, mret tt)
           end)
        (λ bound e,
           try_except
             (match bound with
              | Some _ =>
                  tg (edit_text processing_msg
                        [Lit "❌ Ошибка при генерации изображения: ";
                         Val (JStr (str_exn e))])
              | None => raise unbound_processing_msg
              end)
             (λ _, tg (answer (Some [Lit "❌ Ошибка: "; Val (JStr (str_exn e))]) true)))
  end.

Definition _handle_upload_image (query : CallbackQuery) : M World unit :=
  set_flag "waiting_for_image";;
  tg (answer None false);;
  tg (reply_text query_message
        [Lit "📤 Отправьте изображение, которое хотите использовать"]
        (Some get_cancel_keyboard)).

Definition _handle_ai_edit_text (query : CallbackQuery) : M World unit :=
  set_flag "waiting_for_ai_edit";;
  tg (answer None false);;
  tg (reply_text query_message
        [Lit ("✏️ Напишите, как изменить текст" +:+ nl +:+
              "Например: 'Сделай короче' или 'Добавь эмодзи'")]
        (Some get_cancel_keyboard)).

Definition _handle_manual_edit_text (query : CallbackQuery) : M World unit :=
  set_flag "waiting_for_manual_edit";;
  tg (answer None false);;
  tg (reply_text query_message [Lit "✏️ Отправьте новый текст для поста"]
        (Some get_cancel_keyboard)).

Definition _handle_back_to_preview (query : CallbackQuery) : M World unit :=
  tg (edit_message_reply_markup get_post_actions_keyboard).

Definition _handle_back_to_edit (query : CallbackQuery) : M World unit :=
  tg (edit_message_reply_markup get_edit_options_keyboard).

Definition _handle_cancel_operation (query : CallbackQuery) : M World unit :=
  match cq_message query with
  | None => tg (answer (Some [Lit "❌ Сообщение не найдено"]) true)
  | Some message =>
      let chat_id := msg_chat_id message in
      pop_flag "waiting_for_manual_edit";;
      pop_flag "waiting_for_ai_edit";;
      pop_flag "waiting_for_image";;
      post_data ← on_storage (PostStorage.get chat_id);
      try_except
        (tg (edit_text query_message [Lit "✅ Операция отменена"]))
        (λ _, try_except (tg (delete_message query_message)) (λ _, mret tt));;
      match post_data with
      | Some post_data =>
          tg (send_photo (Chat chat_id) (image post_data) (text post_data)
                (Some get_post_actions_keyboard))
      | None => tg (answer (Some [Lit "✅ Операция отменена"]) false)
      end
  end.

Definition handlers_map : list (string * (CallbackQuery → M World unit)) :=
  [("send", _handle_send);
   ("cancel", _handle_cancel);
   ("edit", _handle_edit);
   ("edit_image", _handle_edit_image);
   ("edit_text", _handle_edit_text);
   ("regenerate_image", _handle_regenerate_image);
   ("upload_image", _handle_upload_image);
   ("ai_edit_text", _handle_ai_edit_text);
   ("manual_edit_text", _handle_manual_edit_text);
   ("back_to_preview", _handle_back_to_preview);
   ("back_to_edit", _handle_back_to_edit);
   ("cancel_operation", _handle_cancel_operation)].

Definition handle_callback (query : CallbackQuery) : M World unit :=
  tg (answer None false);;
  query_chat_id query;;
  match dict_get (cq_data query) handlers_map with
  | Some handler => handler query
  | None => mret tt
  end.

Definition reset_command (message : Message) : M World unit :=
  on_storage
    (present ← gets (λ s, os_path_exists (storage_file s));
     if present : bool then os_remove else mret tt);;
  on_storage (λ s, PostStorage.__init__ (storage_file s) (disk s));;
  modify (with_user_data (λ _, ∅));;
  tg (reply_text update_message
        [Lit "✅ Все данные сброшены. Вы можете начать заново."] None).

End BotHandlers.

(** ** The session as a sequence of events *)

Inductive event : Type :=
| on_message (message : option Message)
| on_callback (query : CallbackQuery)
| on_reset (message : Message).

Definition dispatch (e : event) : M World unit :=
  match e with
  | on_message m => BotHandlers.handle_message m
  | on_callback q => BotHandlers.handle_callback q
  | on_reset m => BotHandlers.reset_command m
  end.

(** A handler that raises is logged by the framework; the next event finds
    the state the handler left. *)
Definition run_events (es : list event) (w : World) : World :=
  foldl (λ w e, (dispatch e w).2) w es.

(** A chat that has not been used yet, in a process started on file [f],
    which can be written. *)
Definition initial_world (e : Env) (f : file) : World :=
  {| env := e; user_data := ∅; storage := (PostStorage.__init__ f Written).2;
     sent := []; tg_calls := 0; text_log := []; image_log := [] |}.

Definition waiting (k : string) (w : World) : bool :=
  default false (user_data w !! k).

(** ** Vocabulary of the statements *)

(** An attempt on the text model fails when the call raises or the
    response has no text; this is the exception the attempt ends with. *)
Definition text_fails (o : text_outcome) : bool :=
  match o with
  | text_raises _ => true
  | text_response t => String.eqb t ""
  end.

Definition text_failure (o : text_outcome) : exn :=
  match o with
  | text_raises msg => Exn "GoogleAPIError" msg
  | text_response _ => Exn "ValueError" "Пустой ответ от модели"
  end.

(** An attempt on the image model fails when the call raises or returns
    nothing. *)
Definition image_fails (o : image_outcome) : bool :=
  match o with
  | image_raises _ => true
  | image_returns None => true
  | image_returns (Some _) => false
  end.

(** A computation keeps a relation between the state it starts in and the
    state it leaves, whether it returns or raises. *)
Definition keeps {A} (R : World → World → Prop) (m : M World A) : Prop :=
  ∀ w, R w (m w).2.

(** The same, with a property of the value returned. *)
Definition returns {A} (R : World → World → Prop) (Q : A → Prop) (m : M World A)
  : Prop :=
  ∀ w, R w (m w).2 ∧ match (m w).1 with inr a => Q a | inl _ => True end.

(** The store is as it was, or a record satisfying [P] was saved for
    [chat] on top of it. *)
Definition saved_or_same (chat : Z) (P : PostData → Prop) (w w' : World) : Prop :=
  storage w' = storage w ∨
  ∃ post, P post ∧ storage w' = (PostStorage.save chat post (storage w)).2.

(** The text model answers its first two calls and the image model its
    first one; after that both are down. *)
Definition down_after_submission : Env :=
  {| telegram := λ _, None;
     text_model := λ n, if (n <? 2)%nat then text_response "Short text"
                        else text_raises "503 unavailable";
     image_model := λ n, if (n <? 1)%nat then image_returns (Some
         {| candidates := None;
            parts := Some [{| inline_data := Some (bytes_data [x01; x02; x03]) |}] |})
       else image_raises "503 unavailable";
     png_body := [x00] |}.

(** The relation "the observation [f] of the state is unchanged". *)
Definition same {X} (f : World → X) (w w' : World) : Prop := f w' = f w.

(** An environment in which every call goes through: the transport
    delivers, the text model answers, the image model returns one part
    with three bytes. *)
Definition friendly : Env :=
  {| telegram := λ _, None;
     text_model := λ _, text_response " Short text ";
     image_model := λ _, image_returns (Some
       {| candidates := None;
          parts := Some [{| inline_data := Some (bytes_data [x01; x02; x03]) |}] |});
     png_body := [x00] |}.

(** The same with a text model that is down and an image model that
    raises. *)
Definition backend_down : Env :=
  {| telegram := λ _, None;
     text_model := λ _, text_raises "503 unavailable";
     image_model := λ _, image_raises "503 unavailable";
     png_body := [x00] |}.

(** The text model answers, the image model raises. *)
Definition image_backend_down : Env :=
  {| telegram := λ _, None;
     text_model := λ _, text_response "A prompt";
     image_model := λ _, image_raises "503 unavailable";
     png_body := [x00] |}.

(** The text model answers its first [k] calls and is down afterwards. *)
Definition text_down_after (k : nat) : Env :=
  {| telegram := λ _, None;
     text_model := λ n, if (n <? k)%nat then text_response "Short text"
                        else text_raises "503 unavailable";
     image_model := λ _, image_returns (Some
       {| candidates := None;
          parts := Some [{| inline_data := Some (bytes_data [x01; x02; x03]) |}] |});
     png_body := [x00] |}.

Definition press (data : string) : event :=
  on_callback {| cq_data := data;
                 cq_message := Some {| msg_chat_id := 42; msg_text := None;
                                       msg_caption := None; msg_photo := [];
                                       msg_video := false |} |}.

Definition say (t : string) : event :=
  on_message (Some {| msg_chat_id := 42; msg_text := Some t; msg_caption := None;
                      msg_photo := []; msg_video := false |}).

(** ** Sample states, messages and snapshots *)

Definition sample_post : PostData :=
  {| text := JStr "Short"; image := [x89; x50; x4e; x47]; chat_id := 42;
     original_text := JStr "Long story"; message_id := JNull |}.

Definition partly_bad_snapshot : file :=
  Content (JObj [("1", JObj [("text", JStr "kept"); ("image_base64", JStr "TQ==")]);
                 ("2", JObj [("text", JStr "no image")])]).

(** A store that holds nothing, on a file system that takes writes. *)
Definition empty_store : PostStorage :=
  {| storage_file := Absent; disk := Written; _posts := ∅ |}.

Definition sample_store : PostStorage :=
  (PostStorage.save 42 sample_post empty_store).2.

(** A fresh chat in which the given flags are set. *)
Definition flags_world (flags : gmap string bool) : World :=
  with_user_data (λ _, flags) (initial_world friendly Absent).

Definition image_flag : gmap string bool := {[ "waiting_for_image" := true ]}.
Definition two_flags : gmap string bool :=
  <["waiting_for_ai_edit" := true]> image_flag.
Definition three_flags : gmap string bool :=
  <["waiting_for_manual_edit" := true]> two_flags.

Definition fresh_world : World := initial_world friendly Absent.

Definition two_presses_world : World :=
  run_events [press "upload_image"; press "ai_edit_text"]
    (initial_world friendly Absent).

Definition hello : Message :=
  {| msg_chat_id := 42; msg_text := Some "hello"; msg_caption := None;
     msg_photo := []; msg_video := false |}.

Definition awaiting_image_world : World :=
  run_events [press "upload_image"] (initial_world friendly Absent).

Definition shorter : Message :=
  {| msg_chat_id := 42; msg_text := Some "shorter"; msg_caption := None;
     msg_photo := []; msg_video := false |}.

Definition awaiting_instruction_world : World :=
  run_events [say "Breaking: X happened"; press "ai_edit_text"]
    (initial_world (text_down_after 2) Absent).

Definition photo_message : Message :=
  {| msg_chat_id := 42; msg_text := None; msg_caption := Some "Breaking: X happened";
     msg_photo := [[xff; xd8; xff]]; msg_video := false |}.

Definition two_sizes_message : Message :=
  {| msg_chat_id := 42; msg_text := None; msg_caption := Some "Breaking: X happened";
     msg_photo := [[xff; xd8]; [xff; xd8; xff]]; msg_video := false |}.

Definition reviewed_world (e : Env) : World :=
  run_events [say "Breaking: X happened"] (initial_world e Absent).

Definition regenerate_query : CallbackQuery :=
  {| cq_data := "regenerate_image";
     cq_message := Some {| msg_chat_id := 42; msg_text := None; msg_caption := None;
                           msg_photo := []; msg_video := false |} |}.

(** ** Vocabulary of the further properties *)

(** The snapshot file says what the map says: it holds the dump of the
    map, or there is no file and the map is empty. *)
Definition in_sync (s : PostStorage) : Prop :=
  storage_file s = Content (JObj (dump_entry <$> map_to_list (_posts s))) ∨
  (storage_file s = Absent ∧ _posts s = ∅).

(** Every record is stored under its own chat id. *)
Definition well_keyed (m : gmap Z PostData) : Prop :=
  ∀ c p, m !! c = Some p → chat_id p = c.

(** A store on a file system that takes writes, in step with its file. *)
Definition consistent (s : PostStorage) : Prop :=
  disk s = Written ∧ in_sync s ∧ well_keyed (_posts s).

(** A relation on one component of the state. *)
Definition field_rel {X} (f : World → X) (Q : X → X → Prop) (w w' : World) : Prop :=
  Q (f w) (f w').

Definition stays_consistent (s s' : PostStorage) : Prop := consistent s → consistent s'.

(** The record of chat [c] is as it was. *)
Definition same_record (c : Z) (s s' : PostStorage) : Prop :=
  _posts s' !! c = _posts s !! c.

(** No flag is set that was not set before. *)
Definition no_new_flag (u u' : gmap string bool) : Prop :=
  ∀ k, default false (u' !! k) = true → default false (u !! k) = true.

(** A store whose file holds another chat's record and refuses writes. *)
Definition read_only_store : PostStorage :=
  {| storage_file := storage_file sample_store; disk := Refused;
     _posts := _posts sample_store |}.

(** The number a decimal literal denotes, most significant digit first;
    used to relate [digits_val] to the standard library's decimals. *)
Fixpoint uint_val (acc : Z) (d : Decimal.uint) : Z :=
  match d with
  | Nil => acc
  | D0 d => uint_val (10 * acc + 0) d
  | D1 d => uint_val (10 * acc + 1) d
  | D2 d => uint_val (10 * acc + 2) d
  | D3 d => uint_val (10 * acc + 3) d
  | D4 d => uint_val (10 * acc + 4) d
  | D5 d => uint_val (10 * acc + 5) d
  | D6 d => uint_val (10 * acc + 6) d
  | D7 d => uint_val (10 * acc + 7) d
  | D8 d => uint_val (10 * acc + 8) d
  | D9 d => uint_val (10 * acc + 9) d
  end%Z.


(** * Properties *)

(** ** Base64 *)

Lemma triple_ind {A} (P : list A → Prop) :
  P [] → (∀ x, P [x]) → (∀ x y, P [x; y]) →
  (∀ x y z l, P l → P (x :: y :: z :: l)) →
  ∀ l, P l.
Proof.
  intros H0 H1 H2 H3.
  assert (H : ∀ l, P l ∧ (∀ x, P (x :: l)) ∧ (∀ x y, P (x :: y :: l))).
  { induction l as [|a l (Ha & Hb & Hc)]; [by auto|].
    split; [by apply Hb|]. split; [by intros; apply Hc|].
    intros x y. by apply H3. }
  intros l. apply H.
Qed.

Lemma byte_of_to_N (b : byte) : byte_of_N (Byte.to_N b) = b.
Proof.
  unfold byte_of_N. pose proof (Byte.to_N_bounded b).
  rewrite N.mod_small by lia. by rewrite Byte.of_to_N.
Qed.

Lemma sextets_ok :
  forallb (λ k, let n := N.of_nat k in
                negb (Ascii.eqb (b2a n) "=") && (N_of_ascii (b2a n) <? 128)%N &&
                match a2b (b2a n) with Some m => (m =? n)%N | None => false end)
          (seq 0 64) = true.
Proof. vm_compute. reflexivity. Qed.

Lemma a2b_b2a (n : N) :
  (n < 64)%N →
  Ascii.eqb (b2a n) "=" = false ∧ a2b (b2a n) = Some n ∧
  (N_of_ascii (b2a n) <? 128)%N = true.
Proof.
  intros Hn. pose proof sextets_ok as H.
  rewrite forallb_forall in H.
  specialize (H (N.to_nat n)). rewrite N2Nat.id in H. cbv zeta in H.
  assert (Hin : In (N.to_nat n) (seq 0 64)) by (apply in_seq; lia).
  apply H in Hin. apply andb_prop in Hin as [H1 H2].
  apply andb_prop in H1 as [H1 H3].
  split; [by apply negb_true_iff|]. split; [|done].
  destruct (a2b (b2a n)) as [m|]; [|done].
  apply N.eqb_eq in H2. by subst.
Qed.

Local Ltac euclid := zify; Z.to_euclidean_division_equations; lia.

Lemma sextet_bounds (a b : N) :
  (a < 256 → b < 256 →
   a / 4 < 64 ∧ a mod 4 * 16 + b / 16 < 64 ∧ b mod 16 * 4 < 64 ∧
   a mod 4 * 16 < 64 ∧ b mod 16 * 4 + a / 64 < 64 ∧ a mod 64 < 64)%N.
Proof. intros. repeat split; euclid. Qed.

Lemma byte_of_N_eq (n : N) (b : byte) : n = Byte.to_N b → byte_of_N n = b.
Proof. intros ->. apply byte_of_to_N. Qed.

(** Decoding what [b64encode] wrote gives the bytes back, whatever the
    decoder held in [leftchar], [pads] and [written] at the start of a
    group. *)
Lemma a2b_base64_b64encode (data : list byte) :
  ∀ leftchar pads written,
    a2b_base64 (b64encode data) 0 leftchar pads written = inr data.
Proof.
  induction data as [|x|x y|x y z l IH] using triple_ind; intros lc pads written.
  - reflexivity.
  - pose proof (Byte.to_N_bounded x) as Hx.
    destruct (sextet_bounds (Byte.to_N x) 0) as (H1 & _ & _ & H2 & _); [lia..|].
    apply a2b_b2a in H1 as (E1 & D1 & _). apply a2b_b2a in H2 as (E2 & D2 & _).
    cbn [b64encode a2b_base64]. rewrite E1, D1, E2, D2. cbn.
    by rewrite (byte_of_N_eq _ x) by euclid.
  - pose proof (Byte.to_N_bounded x) as Hx. pose proof (Byte.to_N_bounded y) as Hy.
    destruct (sextet_bounds (Byte.to_N x) (Byte.to_N y)) as (H1 & H2 & H3 & _); [lia..|].
    apply a2b_b2a in H1 as (E1 & D1 & _). apply a2b_b2a in H2 as (E2 & D2 & _).
    apply a2b_b2a in H3 as (E3 & D3 & _).
    cbn [b64encode a2b_base64]. rewrite E1, D1, E2, D2, E3, D3. cbn.
    by rewrite (byte_of_N_eq _ x), (byte_of_N_eq _ y) by euclid.
  - pose proof (Byte.to_N_bounded x) as Hx. pose proof (Byte.to_N_bounded y) as Hy.
    pose proof (Byte.to_N_bounded z) as Hz.
    destruct (sextet_bounds (Byte.to_N x) (Byte.to_N y)) as (H1 & H2 & _); [lia..|].
    destruct (sextet_bounds (Byte.to_N z) (Byte.to_N y)) as (_ & _ & _ & _ & H3 & H4); [lia..|].
    apply a2b_b2a in H1 as (E1 & D1 & _). apply a2b_b2a in H2 as (E2 & D2 & _).
    apply a2b_b2a in H3 as (E3 & D3 & _). apply a2b_b2a in H4 as (E4 & D4 & _).
    cbn [b64encode a2b_base64]. rewrite E1, D1, E2, D2, E3, D3, E4, D4.
    rewrite IH. cbn [emit].
    by rewrite (byte_of_N_eq _ x), (byte_of_N_eq _ y), (byte_of_N_eq _ z) by euclid.
Qed.

Lemma is_ascii_b64encode (data : list byte) : is_ascii (b64encode data) = true.
Proof.
  unfold is_ascii.
  induction data as [|x|x y|x y z l IH] using triple_ind.
  - reflexivity.
  - pose proof (Byte.to_N_bounded x) as Hx.
    destruct (sextet_bounds (Byte.to_N x) 0) as (H1 & _ & _ & H2 & _); [lia..|].
    apply a2b_b2a in H1 as (_ & _ & A1). apply a2b_b2a in H2 as (_ & _ & A2).
    cbn [b64encode list_ascii_of_string forallb]. by rewrite A1, A2.
  - pose proof (Byte.to_N_bounded x) as Hx. pose proof (Byte.to_N_bounded y) as Hy.
    destruct (sextet_bounds (Byte.to_N x) (Byte.to_N y)) as (H1 & H2 & H3 & _); [lia..|].
    apply a2b_b2a in H1 as (_ & _ & A1). apply a2b_b2a in H2 as (_ & _ & A2).
    apply a2b_b2a in H3 as (_ & _ & A3).
    cbn [b64encode list_ascii_of_string forallb]. by rewrite A1, A2, A3.
  - pose proof (Byte.to_N_bounded x) as Hx. pose proof (Byte.to_N_bounded y) as Hy.
    pose proof (Byte.to_N_bounded z) as Hz.
    destruct (sextet_bounds (Byte.to_N x) (Byte.to_N y)) as (H1 & H2 & _); [lia..|].
    destruct (sextet_bounds (Byte.to_N z) (Byte.to_N y)) as (_ & _ & _ & _ & H3 & H4); [lia..|].
    apply a2b_b2a in H1 as (_ & _ & A1). apply a2b_b2a in H2 as (_ & _ & A2).
    apply a2b_b2a in H3 as (_ & _ & A3). apply a2b_b2a in H4 as (_ & _ & A4).
    cbn [b64encode list_ascii_of_string forallb]. by rewrite A1, A2, A3, A4, IH.
Qed.

(** [b64decode(b64encode(data).decode('utf-8')) == data]. *)
Lemma b64decode_b64encode (data : list byte) :
  b64decode (JStr (b64encode data)) = inr data.
Proof.
  unfold b64decode. rewrite is_ascii_b64encode. apply a2b_base64_b64encode.
Qed.

(** ** Decimal integers *)

Lemma digits_val_uint (d : Decimal.uint) :
  ∀ acc prev,
    digits_val acc prev (NilEmpty.string_of_uint d) =
    match d with
    | Nil => if prev then Some acc else None
    | _ => Some (uint_val acc d)
    end.
Proof.
  induction d; intros acc prev; cbn -[Z.mul Z.add digit_val]; [done|..];
    match goal with |- context [digit_val ?c] =>
      let v := eval vm_compute in (digit_val c) in change (digit_val c) with v
    end; cbv iota beta; rewrite IHd; by destruct d.
Qed.

Lemma uint_val_pos (d : Decimal.uint) :
  ∀ acc, uint_val (Z.pos acc) d = Z.pos (Pos.of_uint_acc d acc).
Proof.
  induction d; intros acc; cbn [uint_val Pos.of_uint_acc]; [done|..];
    match goal with |- uint_val ?a _ = Z.pos (Pos.of_uint_acc _ ?p) =>
      replace a with (Z.pos p) by lia end; apply IHd.
Qed.

Lemma uint_val_0 (d : Decimal.uint) : uint_val 0 d = Z.of_N (Pos.of_uint d).
Proof.
  induction d; cbn [uint_val Pos.of_uint]; try done;
    change (Z.of_N (N.pos ?p)) with (Z.pos p); by rewrite <- uint_val_pos.
Qed.

Lemma uint_is_ascii (d : Decimal.uint) :
  is_ascii (NilEmpty.string_of_uint d) = true.
Proof. unfold is_ascii. induction d; cbn; by try done. Qed.

Lemma uint_skip_spaces (d : Decimal.uint) :
  skip_spaces (NilEmpty.string_of_uint d) = NilEmpty.string_of_uint d.
Proof. by destruct d. Qed.

Lemma int_literal_uint (d : Decimal.uint) :
  d ≠ Nil →
  int_literal (NilEmpty.string_of_uint d) = Some (Z.of_N (Pos.of_uint d)).
Proof.
  intros Hd. rewrite <- uint_val_0.
  transitivity (digits_val 0 false (NilEmpty.string_of_uint d)).
  - by destruct d.
  - rewrite digits_val_uint. by destruct d.
Qed.

Lemma string_of_uint_nonnil (d : Decimal.uint) :
  d ≠ Nil → NilZero.string_of_uint d = NilEmpty.string_of_uint d.
Proof. by destruct d. Qed.

(** [int(str(n)) == n]. *)
Lemma py_int_str (z : Z) : py_int (py_str_int z) = Some z.
Proof.
  unfold py_int, py_str_int, to_ascii_decimal.
  destruct z as [|p|p]; [done| |]; cbn [Z.to_int NilZero.string_of_int];
    pose proof (DecimalPos.Unsigned.to_uint_nonnil p) as Hn;
    pose proof (DecimalPos.Unsigned.of_to p) as Hp;
    rewrite string_of_uint_nonnil by done.
  - rewrite uint_is_ascii, uint_skip_spaces.
    by rewrite int_literal_uint, Hp.
  - assert (is_ascii (String "-" (NilEmpty.string_of_uint (Pos.to_uint p))) = true)
      as -> by apply (uint_is_ascii (Pos.to_uint p)).
    change (skip_spaces (String "-" ?s)) with (String "-" s).
    cbn [int_literal].
    rewrite digits_val_uint, uint_val_0, Hp. by destruct (Pos.to_uint p).
Qed.

(** ** The record store *)

Lemma bind_run {S A B} (m : M S A) (k : A → M S B) (s : S) :
  (m ≫= k) s =
  match m s with
  | (inr a, s') => k a s'
  | (inl e, s') => (inl e, s')
  end.
Proof. reflexivity. Qed.


Ltac mrun :=
  unfold mbind, M_bind, mret, M_ret, lift, gets, modify, try_except, raise, zoom;
  cbn.

Lemma load_entry_dump (c : Z) (p : PostData) :
  PostStorage.load_entry (py_str_int c) (post_dict_of p) =
  inr (c, rekey (c, p)).
Proof.
  unfold PostStorage.load_entry, int_of_str. rewrite py_int_str.
  cbn [mbind sum_bind getitem post_dict_of dict_get String.eqb Ascii.eqb Bool.eqb].
  by rewrite b64decode_b64encode.
Qed.

Lemma load_entries_dump (l : list (Z * PostData)) (s : PostStorage) :
  PostStorage.load_entries (dump_entry <$> l) s =
  (inr tt, with_posts (λ m, foldl (λ m kv, <[kv.1 := rekey kv]> m) m l) s).
Proof.
  revert s. induction l as [|[c p] l IH]; intros s.
  - by destruct s.
  - cbn [fmap list_fmap PostStorage.load_entries dump_entry fst snd].
    unfold mbind at 1, M_bind at 1, lift. rewrite load_entry_dump.
    unfold mbind at 1, M_bind at 1, modify. rewrite IH. by destruct s.
Qed.

Lemma foldl_insert_lookup (l : list (Z * PostData)) :
  ∀ (m : gmap Z PostData) c,
    NoDup l.*1 →
    foldl (λ m kv, <[kv.1 := rekey kv]> m) m l !! c =
    match list_to_map (M := gmap Z PostData) l !! c with
    | Some p => Some (rekey (c, p))
    | None => m !! c
    end.
Proof.
  induction l as [|[k p] l IH]; intros m c Hnd; [done|].
  apply NoDup_cons in Hnd as [Hk Hnd]. cbn [foldl fst snd list_to_map foldr].
  rewrite IH by done.
  destruct (decide (k = c)) as [->|Hne].
  - rewrite lookup_insert_eq.
    assert (list_to_map (M := gmap Z PostData) l !! c = None) as ->
      by by apply not_elem_of_list_to_map_1.
    by rewrite lookup_insert_eq.
  - by rewrite !lookup_insert_ne by done.
Qed.

Lemma py_str_int_inj (a b : Z) : py_str_int a = py_str_int b → a = b.
Proof.
  intros H. apply (f_equal py_int) in H. rewrite !py_int_str in H. congruence.
Qed.

(** The snapshot has one entry per chat. *)
Lemma snapshot_keys_NoDup (m : gmap Z PostData) :
  NoDup (dump_entry <$> map_to_list m).*1.
Proof.
  rewrite <- list_fmap_compose.
  change (fst ∘ dump_entry) with (py_str_int ∘ (fst : Z * PostData → Z)).
  rewrite list_fmap_compose. apply NoDup_fmap_2.
  - intros a b. apply py_str_int_inj.
  - apply NoDup_fst_map_to_list.
Qed.

Lemma save_to_disk_run (s : PostStorage) :
  PostStorage._save_to_disk s = (inr tt, flushed s).
Proof.
  unfold PostStorage._save_to_disk, try_except, json_dump, flushed.
  rewrite bind_run. unfold gets. by destruct (disk s).
Qed.

Lemma flushed_posts (s : PostStorage) : _posts (flushed s) = _posts s.
Proof. unfold flushed. by destruct (disk s). Qed.

Lemma flushed_disk (s : PostStorage) : disk (flushed s) = disk s.
Proof. unfold flushed. destruct s as [f d m]. by destruct d. Qed.

Lemma flushed_written (s : PostStorage) :
  disk s = Written →
  flushed s = {| storage_file := Content (JObj (dump_entry <$> map_to_list (_posts s)));
                 disk := Written; _posts := _posts s |}.
Proof. unfold flushed. destruct s as [f d m]. cbn. by intros ->. Qed.

(** Two writes in a row leave what the second leaves. *)
Lemma flushed_twice (f : gmap Z PostData → gmap Z PostData) (s : PostStorage) :
  flushed (with_posts f (flushed s)) = flushed (with_posts f s).
Proof. unfold flushed. destruct s as [file d m]. by destruct d. Qed.

Lemma save_run (c : Z) (p : PostData) (s : PostStorage) :
  PostStorage.save c p s = (inr tt, flushed (with_posts <[c := p]> s)).
Proof.
  unfold PostStorage.save. rewrite bind_run. unfold modify.
  apply save_to_disk_run.
Qed.

Lemma init_after_dump (m : gmap Z PostData) (d : write_outcome) :
  PostStorage.__init__ (Content (JObj (dump_entry <$> map_to_list m))) d =
  (inr tt, {| storage_file := Content (JObj (dump_entry <$> map_to_list m));
              disk := d;
              _posts := foldl (λ m kv, <[kv.1 := rekey kv]> m) ∅ (map_to_list m) |}).
Proof.
  unfold PostStorage.__init__, PostStorage._load_from_disk.
  unfold try_except, mbind, M_bind, json_load, lift, gets. cbn.
  by rewrite load_entries_dump.
Qed.

Lemma reloaded_lookup (m : gmap Z PostData) (c : Z) :
  foldl (λ (m : gmap Z PostData) kv, <[kv.1 := rekey kv]> m) ∅ (map_to_list m) !! c =
  (λ p, rekey (c, p)) <$> m !! c.
Proof.
  rewrite foldl_insert_lookup by apply NoDup_fst_map_to_list.
  rewrite list_to_map_to_list. by destruct (m !! c).
Qed.

Lemma save_save (c : Z) (p1 p2 : PostData) (s : PostStorage) :
  (PostStorage.save c p2 (PostStorage.save c p1 s).2).2 = (PostStorage.save c p2 s).2.
Proof.
  rewrite !save_run. cbn [snd]. rewrite flushed_twice.
  destruct s as [f d m]. unfold with_posts.
  cbn [storage_file disk _posts]. by rewrite insert_insert_eq.
Qed.

(** C3: [save] is an unconditional upsert.  After two [save]s for one chat
    the store and the snapshot are what the second [save] alone would have
    left: [get] returns the second record, every other chat is as it was,
    and, where the file can be written, the snapshot holds one entry per
    key, the one under this chat's key being the second record. *)
Theorem save_twice_keeps_last (s : PostStorage) (c : Z) (p1 p2 : PostData) :
  let s1 := (PostStorage.save c p1 s).2 in
  let s2 := (PostStorage.save c p2 s1).2 in
  (PostStorage.save c p2 s1).1 = inr tt ∧
  (PostStorage.get c s2).1 = inr (Some p2) ∧
  s2 = (PostStorage.save c p2 s).2 ∧
  (∀ c', c' ≠ c → _posts s2 !! c' = _posts s !! c') ∧
  (disk s = Written →
   ∃ entries,
     storage_file s2 = Content (JObj entries) ∧
     NoDup entries.*1 ∧
     (py_str_int c, post_dict_of p2) ∈ entries).
Proof.
  cbn zeta. rewrite save_save. rewrite !save_run. cbn [fst snd].
  split; [done|]. split; [|split; [done|split]].
  - unfold PostStorage.get, gets. cbn [fst].
    by rewrite flushed_posts; cbn [with_posts _posts]; rewrite lookup_insert_eq.
  - intros c' Hc. rewrite flushed_posts. cbn [with_posts _posts].
    by rewrite lookup_insert_ne.
  - intros Hd. rewrite flushed_written by done. cbn [storage_file with_posts _posts].
    eexists. split; [done|]. split; [apply snapshot_keys_NoDup|].
    apply (list_elem_of_fmap_2 dump_entry _ (c, p2)).
    apply elem_of_map_to_list, lookup_insert_eq.
Qed.

Lemma save_twice_keeps_last_witness :
  (PostStorage.get 42
     (PostStorage.save 42 sample_post
        (PostStorage.save 42 (set_text (JStr "first") sample_post) sample_store).2).2).1
  = inr (Some sample_post) ∧
  _posts (PostStorage.save 42 sample_post
            (PostStorage.save 42 (set_text (JStr "first") sample_post)
               sample_store).2).2 !! 7%Z
  = _posts sample_store !! 7%Z ∧
  disk sample_store = Written ∧
  ∃ entries,
    storage_file (PostStorage.save 42 sample_post
                    (PostStorage.save 42 (set_text (JStr "first") sample_post)
                       sample_store).2).2
    = Content (JObj entries) ∧
    NoDup entries.*1 ∧
    (py_str_int 42, post_dict_of sample_post) ∈ entries.
Proof.
  destruct (save_twice_keeps_last sample_store 42
              (set_text (JStr "first") sample_post) sample_post)
    as (_ & Hget & _ & Hother & Hfile).
  split; [exact Hget|]. split; [apply Hother; discriminate|].
  split; [reflexivity|]. apply Hfile. reflexivity.
Defined.

(** C4: where the file can be written, a [save] followed by a restart
    ([PostStorage(...)] on the file the [save] left) rebuilds the record:
    text, original text, image bytes and message id are the saved ones and
    the chat id is the one the record was saved under, so the record
    itself comes back whenever it carries the chat id of its key, as every
    record built by the controller does.  The load raises nothing and
    keeps the snapshot. *)
Theorem reload_after_save (s : PostStorage) (c : Z) (p : PostData) :
  disk s = Written →
  let saved := (PostStorage.save c p s).2 in
  let reloaded := PostStorage.__init__ (storage_file saved) (disk saved) in
  reloaded.1 = inr tt ∧
  storage_file reloaded.2 = storage_file saved ∧
  ∃ p', (PostStorage.get c reloaded.2).1 = inr (Some p') ∧
        text p' = text p ∧ original_text p' = original_text p ∧
        image p' = image p ∧ message_id p' = message_id p ∧
        chat_id p' = c ∧
        (chat_id p = c → p' = p).
Proof.
  intros Hd. cbn zeta. rewrite save_run. cbn [snd].
  rewrite flushed_written by done. cbn [storage_file disk with_posts _posts].
  rewrite init_after_dump. cbn [fst snd storage_file].
  split; [done|]. split; [done|].
  exists (rekey (c, p)). cbn [PostStorage.get gets fst _posts].
  rewrite reloaded_lookup, lookup_insert_eq.
  repeat split. intros <-. by destruct p.
Qed.

Lemma reload_after_save_witness :
  disk empty_store = Written ∧
  chat_id sample_post = 42%Z ∧
  ∃ p', (PostStorage.get 42
           (PostStorage.__init__
              (storage_file (PostStorage.save 42 sample_post empty_store).2)
              (disk (PostStorage.save 42 sample_post empty_store).2)).2).1
        = inr (Some p') ∧ p' = sample_post.
Proof.
  split; [reflexivity|]. split; [reflexivity|].
  destruct (reload_after_save empty_store 42 sample_post eq_refl)
    as (_ & _ & p' & Hget & _ & _ & _ & _ & _ & Heq).
  exists p'. split; [exact Hget|]. apply Heq. reflexivity.
Defined.

Lemma load_entries_good (good rest : list (string * json))
    (decoded : list (Z * PostData)) (s : PostStorage) :
  Forall2 (λ kv d, PostStorage.load_entry kv.1 kv.2 = inr d) good decoded →
  PostStorage.load_entries (good ++ rest) s =
  PostStorage.load_entries rest
    (with_posts (λ m, foldl (λ m d, <[d.1 := d.2]> m) m decoded) s).
Proof.
  intros H. revert s. induction H as [|[k v] d good decoded Hd _ IH]; intros s.
  - by destruct s.
  - cbn [app PostStorage.load_entries]. cbn [fst snd] in Hd.
    unfold mbind at 1, M_bind at 1, lift. rewrite Hd.
    unfold mbind at 1, M_bind at 1, modify. rewrite IH. by destruct s.
Qed.

Lemma load_entries_bad (k : string) (v : json) (rest : list (string * json))
    (e : exn) (s : PostStorage) :
  PostStorage.load_entry k v = inl e →
  PostStorage.load_entries ((k, v) :: rest) s = (inl e, s).
Proof.
  intros H. cbn [PostStorage.load_entries].
  unfold mbind at 1, M_bind at 1, lift. by rewrite H.
Qed.

(** What the constructor does with a snapshot, case by case.  It raises
    nothing.  A file that cannot be read or parsed, or whose content is not
    an object, leaves the store empty.  When reading an entry of the object
    raises, the file is removed and the records of the entries read before
    it are still in the map. *)
Lemma load_never_raises (f : file) (d : write_outcome) :
  (PostStorage.__init__ f d).1 = inr tt ∧
  (∀ removable, f = Unreadable removable →
     _posts (PostStorage.__init__ f d).2 = ∅ ∧
     storage_file (PostStorage.__init__ f d).2 =
       (if removable then Absent else Unreadable false)) ∧
  (∀ data e, f = Content data → dict_items data = inl e →
     PostStorage.__init__ f d =
     (inr tt, {| storage_file := Absent; disk := d; _posts := ∅ |})) ∧
  (∀ good decoded k v rest e,
     f = Content (JObj (good ++ (k, v) :: rest)) →
     Forall2 (λ kv d, PostStorage.load_entry kv.1 kv.2 = inr d) good decoded →
     PostStorage.load_entry k v = inl e →
     PostStorage.__init__ f d =
     (inr tt, {| storage_file := Absent; disk := d;
                 _posts := foldl (λ m d, <[d.1 := d.2]> m) ∅ decoded |})).
Proof.
  unfold PostStorage.__init__, PostStorage._load_from_disk.
  unfold try_except, mbind, M_bind, json_load, gets, os_remove, lift.
  split; [|split; [|split]].
  - destruct f as [| [|] |data]; cbn; try done.
    destruct data as [| | | | | |items]; cbn; try done.
    by destruct (PostStorage.load_entries items _) as [[e|[]] s'];
      cbn; destruct (storage_file s') as [|[|]|].
  - intros removable ->. by destruct removable.
  - intros data e -> He. by destruct data.
  - intros good decoded k v rest e -> Hgood Hbad. cbn.
    rewrite (load_entries_good _ _ _ _ Hgood), (load_entries_bad _ _ _ _ _ Hbad).
    done.
Qed.

(** A snapshot whose second entry lacks its image: the load stops there,
    removes the file and keeps the first record. *)
Example load_partly_bad_snapshot :
  PostStorage.__init__ partly_bad_snapshot Written =
  (inr tt, {| storage_file := Absent; disk := Written;
              _posts := {[ 1%Z := {| text := JStr "kept"; image := [x4d];
                                    chat_id := 1; original_text := JNull;
                                    message_id := JNull |} ]} |}).
Proof.
  destruct (load_never_raises partly_bad_snapshot Written) as (_ & _ & _ & H).
  rewrite (H [("1", JObj [("text", JStr "kept"); ("image_base64", JStr "TQ==")])]
             [(1%Z, {| text := JStr "kept"; image := [x4d]; chat_id := 1;
                       original_text := JNull; message_id := JNull |})]
             "2" (JObj [("text", JStr "no image")]) []
             (Exn "KeyError" "'image_base64'")).
  - reflexivity.
  - reflexivity.
  - repeat constructor.
  - reflexivity.
Defined.

(** C5 does not hold of the code.  The snapshot [partly_bad_snapshot] is
    corrupt: reading its second entry raises [KeyError].  Building the
    store from it raises nothing, as C5 says, but the store is not empty:
    the [except] branch removes the file and leaves in [_posts] the record
    loaded before the failure.  This is so whatever the file system does
    with writes. *)
Theorem corrupt_snapshot_leaves_records (d : write_outcome) :
  PostStorage.load_entry "2" (JObj [("text", JStr "no image")])
    = inl (Exn "KeyError" "'image_base64'") ∧
  (PostStorage.__init__ partly_bad_snapshot d).1 = inr tt ∧
  _posts (PostStorage.__init__ partly_bad_snapshot d).2 ≠ ∅.
Proof.
  split; [|split].
  - reflexivity.
  - reflexivity.
  - intros H. apply (f_equal (λ m : gmap Z PostData, m !! 1%Z)) in H.
    vm_compute in H. discriminate H.
Qed.

Lemma update_text_run (c : Z) (t : pyval) (s : PostStorage) (p : PostData) :
  _posts s !! c = Some p →
  PostStorage.update_text c t s =
  (inr true, flushed (with_posts <[c := set_text t p]> s)).
Proof.
  intros H. unfold PostStorage.update_text, PostStorage.get.
  rewrite bind_run. unfold gets. rewrite H.
  rewrite bind_run. unfold modify. rewrite bind_run, save_to_disk_run. done.
Qed.

Lemma update_image_run (c : Z) (img : list byte) (s : PostStorage) (p : PostData) :
  _posts s !! c = Some p →
  PostStorage.update_image c img s =
  (inr true, flushed (with_posts <[c := set_image img p]> s)).
Proof.
  intros H. unfold PostStorage.update_image, PostStorage.get.
  rewrite bind_run. unfold gets. rewrite H.
  rewrite bind_run. unfold modify. rewrite bind_run, save_to_disk_run. done.
Qed.

Lemma update_absent_run (c : Z) (t : pyval) (img : list byte) (s : PostStorage) :
  _posts s !! c = None →
  PostStorage.update_text c t s = (inr false, s) ∧
  PostStorage.update_image c img s = (inr false, s).
Proof.
  intros H. unfold PostStorage.update_text, PostStorage.update_image, PostStorage.get.
  rewrite !bind_run. unfold gets. by rewrite H.
Qed.

(** C6: for a chat without a record [update_text] and [update_image]
    return [False] and leave the map and the snapshot file as they were;
    for a chat with a record they return [True], the record keeps every
    field but the one replaced, the other chats keep their records, and,
    where the file can be written, the snapshot is rewritten from the new
    map. *)
Theorem update_reports_presence (s : PostStorage) (c : Z)
    (new_text : pyval) (new_image : list byte) :
  (_posts s !! c = None →
     PostStorage.update_text c new_text s = (inr false, s) ∧
     PostStorage.update_image c new_image s = (inr false, s)) ∧
  (∀ p, _posts s !! c = Some p →
     (∃ s', PostStorage.update_text c new_text s = (inr true, s') ∧
            _posts s' !! c =
              Some {| text := new_text; image := image p; chat_id := chat_id p;
                      original_text := original_text p;
                      message_id := message_id p |} ∧
            (∀ c', c' ≠ c → _posts s' !! c' = _posts s !! c') ∧
            (disk s = Written →
             storage_file s' =
               Content (JObj (dump_entry <$> map_to_list (_posts s'))))) ∧
     (∃ s', PostStorage.update_image c new_image s = (inr true, s') ∧
            _posts s' !! c =
              Some {| text := text p; image := new_image; chat_id := chat_id p;
                      original_text := original_text p;
                      message_id := message_id p |} ∧
            (∀ c', c' ≠ c → _posts s' !! c' = _posts s !! c') ∧
            (disk s = Written →
             storage_file s' =
               Content (JObj (dump_entry <$> map_to_list (_posts s')))))).
Proof.
  split.
  - intros H. apply (update_absent_run c new_text new_image s H).
  - intros p H.
    rewrite (update_text_run _ _ _ p H), (update_image_run _ _ _ p H).
    split; (eexists; split; [reflexivity|]; rewrite flushed_posts;
            cbn [with_posts _posts]; split; [by rewrite lookup_insert_eq|];
            split; [by intros c' Hc; rewrite lookup_insert_ne|];
            intros Hd; by rewrite flushed_written).
Qed.

Lemma update_reports_presence_witness :
  PostStorage.update_text 7 (JStr "x") sample_store = (inr false, sample_store) ∧
  (PostStorage.update_text 42 (JStr "x") sample_store).1 = inr true ∧
  (PostStorage.update_image 42 [x00] sample_store).1 = inr true ∧
  disk sample_store = Written ∧
  storage_file (PostStorage.update_text 42 (JStr "x") sample_store).2 =
    Content (JObj (dump_entry <$> map_to_list
                     (_posts (PostStorage.update_text 42 (JStr "x") sample_store).2))).
Proof.
  destruct (update_reports_presence sample_store 7 (JStr "x") [x00]) as [Habsent _].
  destruct (update_reports_presence sample_store 42 (JStr "x") [x00]) as [_ Hpresent].
  split; [apply Habsent; reflexivity|].
  destruct (Hpresent sample_post eq_refl) as [(s1 & H1 & _ & _ & F1) (s2 & H2 & _)].
  split; [by rewrite H1|]. split; [by rewrite H2|]. split; [reflexivity|].
  rewrite H1. apply F1. reflexivity.
Defined.

(** ** Running the monad *)

Lemma bind_ok {S A B} (m : M S A) (k : A → M S B) (s s' : S) (a : A) :
  m s = (inr a, s') → (m ≫= k) s = k a s'.
Proof. intros H. by rewrite bind_run, H. Qed.

Lemma bind_raise {S A B} (m : M S A) (k : A → M S B) (s s' : S) (e : exn) :
  m s = (inl e, s') → (m ≫= k) s = (inl e, s').
Proof. intros H. by rewrite bind_run, H. Qed.

Lemma on_storage_run {A} (m : M PostStorage A) (w : World) :
  on_storage m w = ((m (storage w)).1, with_storage (m (storage w)).2 w).
Proof. unfold on_storage, zoom. by destruct (m (storage w)). Qed.

(** ** Frame rules *)

Section frame.
Context (R : World → World → Prop) `{!PreOrder R}.

Lemma keeps_ret {A} (a : A) : keeps R (mret a).
Proof. intros w. reflexivity. Qed.

Lemma keeps_raise {A} (e : exn) : keeps R (raise (A := A) e).
Proof. intros w. reflexivity. Qed.

Lemma keeps_lift {A} (r : exn + A) : keeps R (lift r).
Proof. intros w. reflexivity. Qed.

Lemma keeps_gets {A} (f : World → A) : keeps R (gets f).
Proof. intros w. reflexivity. Qed.

Lemma keeps_bind {A B} (m : M World A) (k : A → M World B) :
  keeps R m → (∀ a, keeps R (k a)) → keeps R (m ≫= k).
Proof.
  intros Hm Hk w. rewrite bind_run. specialize (Hm w).
  destruct (m w) as [[e|a] w1]; cbn in *; [done|].
  etransitivity; [exact Hm|apply Hk].
Qed.

Lemma keeps_try_except {A} (body : M World A) (handler : exn → M World A) :
  keeps R body → (∀ e, keeps R (handler e)) → keeps R (try_except body handler).
Proof.
  intros Hb Hh w. unfold try_except. specialize (Hb w).
  destruct (body w) as [[e|a] w1]; cbn in *; [|done].
  etransitivity; [exact Hb|apply Hh].
Qed.

Lemma keeps_try_local {A B} (first : M World A) (rest : A → M World B)
    (handler : option A → exn → M World B) :
  keeps R first → (∀ a, keeps R (rest a)) → (∀ o e, keeps R (handler o e)) →
  keeps R (try_local first rest handler).
Proof.
  intros Hf Hr Hh w. unfold try_local. specialize (Hf w).
  destruct (first w) as [[e|a] w1]; cbn in *.
  - etransitivity; [exact Hf|apply Hh].
  - specialize (Hr a w1). destruct (rest a w1) as [[e|b] w2]; cbn in *.
    + etransitivity; [exact Hf|]. etransitivity; [exact Hr|apply Hh].
    + etransitivity; [exact Hf|exact Hr].
Qed.

Lemma keeps_for_in {A B} (xs : list A) (body : A → M World (option B)) :
  (∀ x, keeps R (body x)) → keeps R (for_in xs body).
Proof.
  intros Hb. induction xs as [|x xs IH]; cbn [for_in]; [apply keeps_ret|].
  apply keeps_bind; [apply Hb|]. intros [v|]; [apply keeps_ret|apply IH].
Qed.

Lemma returns_keeps {A} (Q : A → Prop) (m : M World A) :
  returns R Q m → keeps R m.
Proof. intros H w. apply H. Qed.

Lemma keeps_returns {A} (m : M World A) : keeps R m → returns R (λ _, True) m.
Proof. intros H w. split; [apply H|]. by destruct (m w).1. Qed.

(** The value returned is a value the computation returns from some
    state. *)
Lemma keeps_returns_run {A} (m : M World A) :
  keeps R m → returns R (λ a, ∃ w1, (m w1).1 = inr a) m.
Proof.
  intros H w. split; [apply H|].
  destruct (m w).1 as [e|a] eqn:E; [done|]. by exists w.
Qed.

Lemma returns_ret {A} (Q : A → Prop) (a : A) : Q a → returns R Q (mret a).
Proof. intros H w. split; [reflexivity|exact H]. Qed.

Lemma returns_raise {A} (Q : A → Prop) (e : exn) : returns R Q (raise e).
Proof. intros w. split; [reflexivity|exact I]. Qed.

Lemma returns_bind {A B} (Q : A → Prop) (Q' : B → Prop)
    (m : M World A) (k : A → M World B) :
  returns R Q m → (∀ a, Q a → returns R Q' (k a)) → returns R Q' (m ≫= k).
Proof.
  intros Hm Hk w. rewrite bind_run. destruct (Hm w) as [Hw Hq].
  destruct (m w) as [[e|a] w1]; cbn in *; [done|].
  destruct (Hk a Hq w1) as [Hw1 Hq1]. split; [|done].
  etransitivity; [exact Hw|exact Hw1].
Qed.

Lemma returns_try_except {A} (Q : A → Prop) (body : M World A)
    (handler : exn → M World A) :
  returns R Q body → (∀ e, returns R Q (handler e)) →
  returns R Q (try_except body handler).
Proof.
  intros Hb Hh w. unfold try_except. destruct (Hb w) as [Hw Hq].
  destruct (body w) as [[e|a] w1]; cbn in *; [|done].
  destruct (Hh e w1) as [Hw1 Hq1]. split; [|done].
  etransitivity; [exact Hw|exact Hw1].
Qed.
End frame.

Lemma keeps_weaken {A} (R R' : World → World → Prop) (m : M World A) :
  (∀ w w', R w w' → R' w w') → keeps R m → keeps R' m.
Proof. intros H Hm w. apply H, Hm. Qed.

Lemma returns_weaken {A} (R R' : World → World → Prop) (Q : A → Prop) (m : M World A) :
  (∀ w w', R w w' → R' w w') → returns R Q m → returns R' Q m.
Proof. intros H Hm w. destruct (Hm w). split; [by apply H|done]. Qed.

Global Instance saved_or_same_po (chat : Z) (P : PostData → Prop) :
  PreOrder (saved_or_same chat P).
Proof.
  split; [by left|].
  intros a b c [Hab|(p1 & H1 & Hab)] [Hbc|(p2 & H2 & Hbc)].
  - left. congruence.
  - right. exists p2. split; [done|]. by rewrite Hbc, Hab.
  - right. exists p1. split; [done|]. by rewrite Hbc.
  - right. exists p2. split; [done|]. rewrite Hbc, Hab. apply save_save.
Qed.

Lemma same_storage_saved (chat : Z) (P : PostData → Prop) (w w' : World) :
  same storage w w' → saved_or_same chat P w w'.
Proof. intros H. by left. Qed.

Lemma save_saved (chat : Z) (P : PostData → Prop) (post : PostData) :
  P post → keeps (saved_or_same chat P) (on_storage (PostStorage.save chat post)).
Proof.
  intros H w. right. exists post. split; [done|]. by rewrite on_storage_run.
Qed.

Global Instance same_po {X} (f : World → X) : PreOrder (same f).
Proof. split; [by intros w|]. intros a b c H1 H2. unfold same in *. congruence. Qed.

(** What each primitive leaves alone. *)
Lemma tg_run (call : tg_call) (w : World) :
  tg call w =
  match telegram (env w) (tg_calls w) with
  | None => (inr tt, with_sent (sent w ++ [call]) (S (tg_calls w)) w)
  | Some msg => (inl (Exn "TelegramError" msg), with_sent (sent w) (S (tg_calls w)) w)
  end.
Proof. reflexivity. Qed.

Lemma tg_same {X} (f : World → X) (call : tg_call) :
  (∀ l n w, f (with_sent l n w) = f w) → keeps (same f) (tg call).
Proof.
  intros H w. rewrite tg_run. unfold same.
  destruct (telegram (env w) (tg_calls w)); apply H.
Qed.

Lemma text_call_same {X} (f : World → X) (p : prompt) :
  (∀ l w, f (with_text_log l w) = f w) →
  keeps (same f) (GeminiService.generate_content_async p).
Proof.
  intros H w. unfold GeminiService.generate_content_async, same.
  destruct (text_model (env w) _); apply H.
Qed.

Lemma image_call_same {X} (f : World → X) (p : pyval) :
  (∀ l w, f (with_image_log l w) = f w) →
  keeps (same f) (GeminiService.generate_content p).
Proof.
  intros H w. unfold GeminiService.generate_content, same.
  destruct (image_model (env w) _); apply H.
Qed.

Lemma on_storage_same {X A} (f : World → X) (m : M PostStorage A) :
  (∀ s w, f (with_storage s w) = f w) → keeps (same f) (on_storage m).
Proof.
  intros H w. unfold on_storage, zoom, same.
  destruct (m (storage w)); apply H.
Qed.

Lemma modify_same {X} (f : World → X) (g : World → World) :
  (∀ w, f (g w) = f w) → keeps (same f) (modify g).
Proof. intros H w. apply H. Qed.

Lemma text_attempts_keeps (R : World → World → Prop) `{!PreOrder R} (p : prompt) :
  keeps R (GeminiService.generate_content_async p) →
  keeps R (GeminiService.text_attempts p).
Proof.
  intros H. unfold GeminiService.text_attempts.
  apply keeps_bind; [done| |intros; by apply keeps_ret].
  apply keeps_for_in; [done|]. intros attempt.
  apply keeps_try_except; [done| |].
  - apply keeps_bind; [done..|]. intros t.
    destruct (String.eqb t ""); [by apply keeps_raise|by apply keeps_ret].
  - intros e. destruct (attempt =? 2)%nat; [by apply keeps_raise|by apply keeps_ret].
Qed.

(** One attempt on the text model, read off the environment. *)
Lemma text_attempt_run (p : prompt) (attempt : nat) (w : World) :
  GeminiService.text_attempt p attempt w =
  let o := text_model (env w) (length (text_log w)) in
  let w' := with_text_log (text_log w ++ [p]) w in
  if text_fails o then
    if (attempt =? 2)%nat then (inl (text_failure o), w') else (inr None, w')
  else
    match o with
    | text_response t => (inr (Some (JStr (py_strip t))), w')
    | text_raises _ => (inr None, w')
    end.
Proof.
  unfold GeminiService.text_attempt, GeminiService.generate_content_async.
  mrun. destruct (text_model (env w) (length (text_log w))) as [msg|t]; cbn.
  - by destruct (attempt =? 2)%nat.
  - destruct (String.eqb t ""); cbn; [|done]. by destruct (attempt =? 2)%nat.
Qed.

(** Three failed attempts: the call raises what the third attempt ended
    with, after asking three times. *)
Lemma text_attempts_fail (p : prompt) (w : World) :
  (∀ i, i < 3 → text_fails (text_model (env w) (length (text_log w) + i)) = true) →
  GeminiService.text_attempts p w =
  (inl (text_failure (text_model (env w) (length (text_log w) + 2))),
   with_text_log (text_log w ++ [p; p; p]) w).
Proof.
  intros H.
  pose proof (H 0 ltac:(lia)) as H0. pose proof (H 1 ltac:(lia)) as H1.
  pose proof (H 2 ltac:(lia)) as H2. rewrite Nat.add_0_r in H0.
  unfold GeminiService.text_attempts. cbn [seq for_in].
  rewrite bind_run, bind_run, text_attempt_run. cbn zeta. rewrite H0. cbn.
  rewrite bind_run, text_attempt_run. cbn. rewrite length_app. cbn [length].
  rewrite H1. cbn.
  rewrite bind_run, text_attempt_run. cbn. rewrite !length_app. cbn [length].
  rewrite <- Nat.add_assoc. cbn [Nat.add]. rewrite H2. cbn.
  unfold with_text_log. cbn. by rewrite <- !app_assoc.
Qed.

(** The first attempt that is answered with a text ends the loop. *)
Lemma text_attempts_succeed (p : prompt) (w : World) (k : nat) (t : string) :
  k < 3 →
  (∀ i, i < k → text_fails (text_model (env w) (length (text_log w) + i)) = true) →
  text_model (env w) (length (text_log w) + k) = text_response t →
  t ≠ "" →
  GeminiService.text_attempts p w =
  (inr (JStr (py_strip t)), with_text_log (text_log w ++ replicate (S k) p) w).
Proof.
  intros Hk H Ht Hne.
  assert (text_fails (text_response t) = false) as Hok.
  { cbn. by apply String.eqb_neq. }
  unfold GeminiService.text_attempts. cbn [seq for_in].
  rewrite bind_run, bind_run, text_attempt_run. cbn zeta.
  destruct k as [|[|[|k]]]; [| | |lia].
  - rewrite Nat.add_0_r in Ht. rewrite Ht, Hok. done.
  - pose proof (H 0 ltac:(lia)) as H0. rewrite Nat.add_0_r in H0. rewrite H0. cbn.
    rewrite bind_run, text_attempt_run. cbn. rewrite length_app. cbn [length].
    rewrite Ht, Hok. unfold with_text_log. cbn. by rewrite <- !app_assoc.
  - pose proof (H 0 ltac:(lia)) as H0. pose proof (H 1 ltac:(lia)) as H1.
    rewrite Nat.add_0_r in H0. rewrite H0. cbn.
    rewrite bind_run, text_attempt_run. cbn. rewrite length_app. cbn [length].
    rewrite H1. cbn.
    rewrite bind_run, text_attempt_run. cbn. rewrite !length_app. cbn [length].
    rewrite <- Nat.add_assoc. cbn [Nat.add]. rewrite Ht, Hok.
    unfold with_text_log. cbn. by rewrite <- !app_assoc.
Qed.

(** ** Image generation *)

Lemma image_attempt_keeps (R : World → World → Prop) `{!PreOrder R}
    (prompt : pyval) (attempt : nat) :
  keeps R (GeminiService.generate_content prompt) →
  keeps R (GeminiService.image_attempt prompt attempt).
Proof.
  intros H. unfold GeminiService.image_attempt, GeminiService._create_placeholder_image.
  apply keeps_try_except; [done| |].
  - apply keeps_bind; [done| |intros _].
    { destruct (sliceable prompt); [by apply keeps_ret|by apply keeps_raise]. }
    apply keeps_bind; [done..|]. intros [response|]; [|by apply keeps_raise].
    cbv zeta. destruct (negb _).
    { apply keeps_bind; [done|by apply keeps_gets|intros; by apply keeps_ret]. }
    apply keeps_bind; [done| |].
    { destruct (GeminiService.extract_image_data response) as [[b|s]|];
        [by apply keeps_ret|by apply keeps_lift|by apply keeps_ret]. }
    intros [|b bs]; [|by apply keeps_ret].
    apply keeps_bind; [done|by apply keeps_gets|intros; by apply keeps_ret].
  - intros e. destruct (attempt =? 2)%nat; [|by apply keeps_ret].
    apply keeps_bind; [done|by apply keeps_gets|intros; by apply keeps_ret].
Qed.

Lemma generate_image_keeps (R : World → World → Prop) `{!PreOrder R} (prompt : pyval) :
  keeps R (GeminiService.generate_content prompt) →
  keeps R (GeminiService._generate_image_sync prompt).
Proof.
  intros H. apply keeps_for_in; [done|]. intros attempt.
  by apply image_attempt_keeps.
Qed.

(** An attempt never raises; it returns a non-empty image or, before the
    last attempt, goes on. *)
Lemma image_attempt_result (prompt : pyval) (attempt : nat) (w : World) :
  match (GeminiService.image_attempt prompt attempt w).1 with
  | inr (Some img) => img ≠ []
  | inr None => attempt ≠ 2
  | inl _ => False
  end.
Proof.
  unfold GeminiService.image_attempt, GeminiService._create_placeholder_image,
    GeminiService.generate_content.
  destruct (attempt =? 2)%nat eqn:E; [|apply Nat.eqb_neq in E]; mrun.
  all: destruct (sliceable prompt); cbn; [|done].
  all: destruct (image_model (env w) (length (image_log w))) as [msg|[response|]];
    cbn; [done| |done].
  all: destruct (blob_truthy (GeminiService.extract_image_data response)); cbn;
    [|done].
  all: destruct (GeminiService.extract_image_data response) as [[[|b bs]|s]|];
    cbn; try done.
  all: destruct (is_ascii s); cbn; [|done].
  all: by destruct (a2b_base64 s 0 0 0 0) as [e|[|b bs]].
Qed.

(** [_generate_image_sync] always returns a non-empty image. *)
Lemma generate_image_total (prompt : pyval) (w : World) :
  ∃ img, (GeminiService._generate_image_sync prompt w).1 = inr (Some img) ∧ img ≠ [].
Proof.
  unfold GeminiService._generate_image_sync. cbn [seq for_in].
  rewrite bind_run.
  pose proof (image_attempt_result prompt 0 w) as H0.
  destruct (GeminiService.image_attempt prompt 0 w) as [[e|[img|]] w1]; cbn in H0;
    [done|by exists img|].
  rewrite bind_run.
  pose proof (image_attempt_result prompt 1 w1) as H1.
  destruct (GeminiService.image_attempt prompt 1 w1) as [[e|[img|]] w2]; cbn in H1;
    [done|by exists img|].
  rewrite bind_run.
  pose proof (image_attempt_result prompt 2 w2) as H2.
  destruct (GeminiService.image_attempt prompt 2 w2) as [[e|[img|]] w3]; cbn in H2;
    [done|by exists img|done].
Qed.

(** A failed attempt asks once, unless the prompt cannot even be logged. *)
Lemma image_attempt_fail (prompt : pyval) (attempt : nat) (w : World) :
  image_fails (image_model (env w) (length (image_log w))) = true →
  GeminiService.image_attempt prompt attempt w =
  (if (attempt =? 2)%nat then inr (Some (placeholder_image (env w)))
   else inr None,
   if sliceable prompt then with_image_log (image_log w ++ [prompt]) w else w).
Proof.
  intros H.
  unfold GeminiService.image_attempt, GeminiService._create_placeholder_image,
    GeminiService.generate_content.
  mrun. destruct (sliceable prompt); cbn; [|by destruct (attempt =? 2)%nat].
  destruct (image_model (env w) (length (image_log w))) as [msg|[response|]];
    [|done|]; cbn; by destruct (attempt =? 2)%nat.
Qed.

(** Three failed attempts end with the placeholder. *)
Lemma generate_image_fallback (prompt : pyval) (w : World) :
  (∀ i, i < 3 → image_fails (image_model (env w) (length (image_log w) + i)) = true) →
  (GeminiService._generate_image_sync prompt w).1 =
  inr (Some (placeholder_image (env w))).
Proof.
  intros H.
  pose proof (H 0 ltac:(lia)) as H0. pose proof (H 1 ltac:(lia)) as H1.
  pose proof (H 2 ltac:(lia)) as H2. rewrite Nat.add_0_r in H0.
  assert (Henv : ∀ l, env (with_image_log l w) = env w) by done.
  unfold GeminiService._generate_image_sync. cbn [seq for_in].
  destruct (sliceable prompt) eqn:Hs.
  - rewrite bind_run, image_attempt_fail by done.
    rewrite Hs. cbn [Nat.eqb]. cbv beta iota.
    rewrite bind_run, image_attempt_fail
      by (cbn [env image_log with_image_log]; rewrite length_app; exact H1).
    rewrite Hs. cbn [Nat.eqb]. cbv beta iota.
    rewrite bind_run, image_attempt_fail
      by (cbn [env image_log with_image_log]; rewrite !length_app;
          rewrite <- Nat.add_assoc; exact H2).
    done.
  - assert (∀ attempt w',
      GeminiService.image_attempt prompt attempt w' =
      (if (attempt =? 2)%nat then inr (Some (placeholder_image (env w')))
       else inr None, w')) as Hrun.
    { intros attempt w'.
      unfold GeminiService.image_attempt, GeminiService._create_placeholder_image.
      mrun. rewrite Hs. cbn. by destruct (attempt =? 2)%nat. }
    rewrite bind_run, Hrun. cbn [Nat.eqb]. cbv beta iota.
    rewrite bind_run, Hrun. cbn [Nat.eqb]. cbv beta iota.
    by rewrite bind_run, Hrun.
Qed.

(** The outcome of an attempt depends on the world only through the
    environment and the image log. *)
Lemma image_attempt_frame (prompt : pyval) (attempt : nat) (w w' : World) :
  env w = env w' → image_log w = image_log w' →
  (GeminiService.image_attempt prompt attempt w).1
  = (GeminiService.image_attempt prompt attempt w').1 ∧
  env (GeminiService.image_attempt prompt attempt w).2
  = env (GeminiService.image_attempt prompt attempt w').2 ∧
  image_log (GeminiService.image_attempt prompt attempt w).2
  = image_log (GeminiService.image_attempt prompt attempt w').2.
Proof.
  intros He Hl. destruct w as [e u st se n tl il], w' as [e' u' st' se' n' tl' il'].
  cbn in He, Hl. subst e' il'.
  unfold GeminiService.image_attempt, GeminiService._create_placeholder_image,
    GeminiService.generate_content.
  mrun.
  destruct (sliceable prompt); cbn; [|by destruct (attempt =? 2)%nat].
  destruct (image_model e (length il)) as [msg|[response|]]; cbn;
    try (by destruct (attempt =? 2)%nat).
  destruct (blob_truthy (GeminiService.extract_image_data response)); cbn; [|done].
  destruct (GeminiService.extract_image_data response) as [[[|b bs]|s]|]; cbn;
    try done.
  destruct (is_ascii s); cbn; [|by destruct (attempt =? 2)%nat].
  destruct (a2b_base64 s 0 0 0 0) as [err|[|b bs]]; cbn;
    by try (destruct (attempt =? 2)%nat).
Qed.

Lemma generate_image_frame (prompt : pyval) (w w' : World) :
  env w = env w' → image_log w = image_log w' →
  (GeminiService._generate_image_sync prompt w).1
  = (GeminiService._generate_image_sync prompt w').1 ∧
  image_log (GeminiService._generate_image_sync prompt w).2
  = image_log (GeminiService._generate_image_sync prompt w').2.
Proof.
  unfold GeminiService._generate_image_sync. generalize (seq 0 3). intros xs.
  revert w w'. induction xs as [|a xs IH]; intros w w' He Hl; [done|].
  cbn [for_in]. rewrite !bind_run.
  destruct (image_attempt_frame prompt a w w' He Hl) as (E1 & E2 & E3).
  destruct (GeminiService.image_attempt prompt a w) as [[e|[img|]] w1],
    (GeminiService.image_attempt prompt a w') as [[e'|[img'|]] w1'];
    cbn [fst snd] in *; try done.
  by apply IH.
Qed.

(** An attempt on a prompt that can be logged sends one request. *)
Lemma image_attempt_log (prompt : pyval) (attempt : nat) (w : World) :
  sliceable prompt = true →
  image_log (GeminiService.image_attempt prompt attempt w).2
  = (image_log w ++ [prompt])%list.
Proof.
  intros Hs.
  unfold GeminiService.image_attempt, GeminiService._create_placeholder_image,
    GeminiService.generate_content.
  mrun. rewrite Hs. cbn.
  destruct (image_model (env w) (length (image_log w))) as [msg|[response|]]; cbn;
    try (by destruct (attempt =? 2)%nat).
  destruct (blob_truthy (GeminiService.extract_image_data response)); cbn; [|done].
  destruct (GeminiService.extract_image_data response) as [[[|b bs]|s]|]; cbn;
    try done.
  destruct (is_ascii s); cbn; [|by destruct (attempt =? 2)%nat].
  destruct (a2b_base64 s 0 0 0 0) as [e|[|b bs]]; cbn;
    by try (destruct (attempt =? 2)%nat).
Qed.

(** [_generate_image_sync] sends one to three requests, all for the
    prompt it was given. *)
Lemma generate_image_log (prompt : pyval) (w : World) :
  sliceable prompt = true →
  ∃ k, k < 3 ∧
       image_log (GeminiService._generate_image_sync prompt w).2
       = (image_log w ++ replicate (S k) prompt)%list.
Proof.
  intros Hs. unfold GeminiService._generate_image_sync. cbn [seq for_in].
  rewrite bind_run.
  pose proof (image_attempt_result prompt 0 w) as R0.
  pose proof (image_attempt_log prompt 0 w Hs) as L0.
  destruct (GeminiService.image_attempt prompt 0 w) as [[e|[img|]] w1];
    cbn [fst snd] in *; [done|by exists 0; split; [lia|]|].
  rewrite bind_run.
  pose proof (image_attempt_result prompt 1 w1) as R1.
  pose proof (image_attempt_log prompt 1 w1 Hs) as L1.
  destruct (GeminiService.image_attempt prompt 1 w1) as [[e|[img|]] w2];
    cbn [fst snd] in *;
    [done|exists 1; split; [lia|]; unfold mret, M_ret; cbn [snd];
          by rewrite L1, L0, <- app_assoc|].
  rewrite bind_run.
  pose proof (image_attempt_result prompt 2 w2) as R2.
  pose proof (image_attempt_log prompt 2 w2 Hs) as L2.
  destruct (GeminiService.image_attempt prompt 2 w2) as [[e|[img|]] w3];
    cbn [fst snd] in *; [done| |done].
  exists 2. split; [lia|]. unfold mret, M_ret. cbn [snd].
  by rewrite L2, L1, L0, <- !app_assoc.
Qed.

(** ** The controller *)

Ltac keeps_same :=
  repeat first
    [ apply tg_same; by intros
    | apply on_storage_same; by intros
    | apply modify_same; by intros
    | apply text_attempts_keeps; [apply _|apply text_call_same; by intros]
    | apply generate_image_keeps; [apply _|apply image_call_same; by intros]
    | apply keeps_ret; apply _
    | apply keeps_raise; apply _
    | apply keeps_lift; apply _
    | apply keeps_gets; apply _
    | apply keeps_bind; [apply _| |intros ?]
    | apply keeps_try_except; [apply _| |intros ?]
    | apply keeps_try_local; [apply _| |intros ?|intros ? ?]
    | match goal with
      | |- keeps _ (match ?x with _ => _ end) => destruct x
      end ].

Lemma flag_run (k : string) (w : World) : flag k w = (inr (waiting k w), w).
Proof. reflexivity. Qed.

Lemma handle_message_flags (w : World) (message : Message) :
  BotHandlers.handle_message (Some message) w =
  if waiting "waiting_for_manual_edit" w
  then BotHandlers._handle_manual_edit_input message w
  else if waiting "waiting_for_ai_edit" w
  then BotHandlers._handle_ai_edit_input message w
  else if waiting "waiting_for_image" w
  then BotHandlers._handle_image_upload message w
  else BotHandlers.handle_message (Some message) w.
Proof.
  destruct (waiting "waiting_for_manual_edit" w) eqn:H1.
  { unfold BotHandlers.handle_message. by rewrite bind_run, flag_run, H1. }
  destruct (waiting "waiting_for_ai_edit" w) eqn:H2.
  { unfold BotHandlers.handle_message. rewrite bind_run, flag_run, H1.
    cbv beta iota. by rewrite bind_run, flag_run, H2. }
  destruct (waiting "waiting_for_image" w) eqn:H3; [|done].
  unfold BotHandlers.handle_message. rewrite bind_run, flag_run, H1.
  cbv beta iota. rewrite bind_run, flag_run, H2.
  cbv beta iota. by rewrite bind_run, flag_run, H3.
Qed.

Lemma pop_flag_run (k : string) (w : World) :
  pop_flag k w = (inr tt, with_user_data (delete k) w).
Proof. reflexivity. Qed.

Lemma waiting_pop (k : string) (w : World) :
  waiting k (with_user_data (delete k) w) = false.
Proof. unfold waiting. cbn. by rewrite lookup_delete_eq. Qed.

Lemma waiting_pop_ne (k k' : string) (w : World) :
  k ≠ k' → waiting k' (with_user_data (delete k) w) = waiting k' w.
Proof. intros H. unfold waiting. cbn. by rewrite lookup_delete_ne. Qed.

(** C10: with several flags set, [handle_message] runs the handler of the
    first flag it finds set, in the order manual edit, AI instruction,
    image, and nothing else: its whole effect is that handler's. *)
Theorem dispatch_by_priority (w : World) (message : Message) :
  (waiting "waiting_for_manual_edit" w = true →
   BotHandlers.handle_message (Some message) w =
   BotHandlers._handle_manual_edit_input message w) ∧
  (waiting "waiting_for_manual_edit" w = false →
   waiting "waiting_for_ai_edit" w = true →
   BotHandlers.handle_message (Some message) w =
   BotHandlers._handle_ai_edit_input message w) ∧
  (waiting "waiting_for_manual_edit" w = false →
   waiting "waiting_for_ai_edit" w = false →
   waiting "waiting_for_image" w = true →
   BotHandlers.handle_message (Some message) w =
   BotHandlers._handle_image_upload message w).
Proof.
  repeat split; intros; rewrite handle_message_flags;
    repeat match goal with H : waiting _ w = _ |- _ => rewrite H; clear H end;
    done.
Qed.

Lemma dispatch_by_priority_witness :
  BotHandlers.handle_message (Some hello) (flags_world three_flags) =
    BotHandlers._handle_manual_edit_input hello (flags_world three_flags) ∧
  BotHandlers.handle_message (Some hello) (flags_world two_flags) =
    BotHandlers._handle_ai_edit_input hello (flags_world two_flags) ∧
  BotHandlers.handle_message (Some hello) (flags_world image_flag) =
    BotHandlers._handle_image_upload hello (flags_world image_flag).
Proof.
  split; [|split].
  - apply (dispatch_by_priority (flags_world three_flags) hello). reflexivity.
  - apply (dispatch_by_priority (flags_world two_flags) hello); reflexivity.
  - apply (dispatch_by_priority (flags_world image_flag) hello); reflexivity.
Defined.

Lemma enter_mode_user_data (k : string) (a b : tg_call) (w : World) :
  user_data ((set_flag k;; tg a;; tg b) w).2 = <[k := true]> (user_data w).
Proof.
  assert (keeps (same user_data) (tg a;; tg b)) as Hrest by keeps_same.
  rewrite bind_run. change (set_flag k w)
    with (inr () : exn + (), with_user_data <[k := true]> w).
  cbv beta iota. apply Hrest.
Qed.

(** C1, as the code has it: each transition into an edit mode sets its own
    flag and leaves the two other flags as they were. *)
Theorem enter_edit_mode_sets_one_flag (w : World) (query : CallbackQuery) :
  let upload := (BotHandlers._handle_upload_image query w).2 in
  let ai := (BotHandlers._handle_ai_edit_text query w).2 in
  let manual := (BotHandlers._handle_manual_edit_text query w).2 in
  (waiting "waiting_for_image" upload = true ∧
   waiting "waiting_for_ai_edit" upload = waiting "waiting_for_ai_edit" w ∧
   waiting "waiting_for_manual_edit" upload = waiting "waiting_for_manual_edit" w) ∧
  (waiting "waiting_for_ai_edit" ai = true ∧
   waiting "waiting_for_image" ai = waiting "waiting_for_image" w ∧
   waiting "waiting_for_manual_edit" ai = waiting "waiting_for_manual_edit" w) ∧
  (waiting "waiting_for_manual_edit" manual = true ∧
   waiting "waiting_for_image" manual = waiting "waiting_for_image" w ∧
   waiting "waiting_for_ai_edit" manual = waiting "waiting_for_ai_edit" w).
Proof.
  cbv zeta.
  unfold BotHandlers._handle_upload_image, BotHandlers._handle_ai_edit_text,
    BotHandlers._handle_manual_edit_text, waiting.
  rewrite !enter_mode_user_data.
  repeat split; by rewrite ?lookup_insert_eq, ?lookup_insert_ne.
Qed.

(** Counterexample to C1 as stated: after "upload image" and then "AI
    edit" in a fresh chat, two flags are set. *)
Lemma two_flags_after_two_presses :
  waiting "waiting_for_image" two_presses_world = true ∧
  waiting "waiting_for_ai_edit" two_presses_world = true.
Proof. vm_compute. split; reflexivity. Qed.

(** C2, as the code has it: with only the image flag set, a message
    without a photo clears the flag before anything else, so the chat is
    back in the default mode; the store is untouched, and the request for
    an image is what is sent when the transport takes the call. *)
Theorem awaiting_image_without_photo (w : World) (message : Message) :
  waiting "waiting_for_manual_edit" w = false →
  waiting "waiting_for_ai_edit" w = false →
  waiting "waiting_for_image" w = true →
  msg_photo message = [] →
  let r := BotHandlers.handle_message (Some message) w in
  waiting "waiting_for_image" r.2 = false ∧
  waiting "waiting_for_manual_edit" r.2 = false ∧
  waiting "waiting_for_ai_edit" r.2 = false ∧
  storage r.2 = storage w ∧
  (telegram (env w) (tg_calls w) = None →
   r.1 = inr tt ∧
   sent r.2 = (sent w ++
     [reply_text update_message [Lit "❌ Пожалуйста, отправьте изображение."] None])%list).
Proof.
  intros H1 H2 H3 Hphoto. cbv zeta.
  rewrite handle_message_flags, H1, H2, H3.
  unfold BotHandlers._handle_image_upload. rewrite Hphoto.
  rewrite bind_run, pop_flag_run. cbv beta iota. rewrite tg_run.
  cbn [env tg_calls with_user_data sent].
  unfold waiting in *.
  destruct (telegram (env w) (tg_calls w)) as [msg|];
    cbn [fst snd user_data with_sent with_user_data storage sent];
    rewrite lookup_delete_eq, !lookup_delete_ne by done;
    repeat split; try done.
Qed.

Lemma awaiting_image_without_photo_witness :
  waiting "waiting_for_image"
    (BotHandlers.handle_message (Some hello) awaiting_image_world).2 = false.
Proof.
  apply (awaiting_image_without_photo awaiting_image_world hello); reflexivity.
Defined.

(** Counterexample to C2 as stated: after "upload image", a text message
    gets the request for an image, and the flag is gone. *)
Lemma image_flag_cleared_without_photo :
  waiting "waiting_for_image" awaiting_image_world = true ∧
  last (sent (run_events [on_message (Some hello)] awaiting_image_world)) =
    Some (reply_text update_message [Lit "❌ Пожалуйста, отправьте изображение."] None) ∧
  waiting "waiting_for_image"
    (run_events [on_message (Some hello)] awaiting_image_world) = false.
Proof. vm_compute. repeat split; reflexivity. Qed.

Lemma get_run (c : Z) (w : World) :
  on_storage (PostStorage.get c) w = (inr (_posts (storage w) !! c), w).
Proof. by destruct w. Qed.

(** C7: in the AI-instruction mode, when the three attempts of the edit
    call fail and the chat has a record, the flag is cleared and the store
    (map and snapshot) is exactly as before, whatever the transport does;
    when the transport takes the two calls, the status message is edited
    to the error of the last attempt, after three requests to edit the
    original text. *)
Theorem ai_edit_backend_exhausted (w : World) (message : Message) (p : PostData) :
  waiting "waiting_for_manual_edit" w = false →
  waiting "waiting_for_ai_edit" w = true →
  _posts (storage w) !! msg_chat_id message = Some p →
  (∀ i, i < 3 → text_fails (text_model (env w) (length (text_log w) + i)) = true) →
  let r := BotHandlers.handle_message (Some message) w in
  let request := edit_prompt (of_opt_str (msg_text message))
                   (py_or (original_text p) (text p)) in
  let failure := text_failure (text_model (env w) (length (text_log w) + 2)) in
  waiting "waiting_for_ai_edit" r.2 = false ∧
  storage r.2 = storage w ∧
  (telegram (env w) (tg_calls w) = None →
   telegram (env w) (S (tg_calls w)) = None →
   r.1 = inr tt ∧
   text_log r.2 = (text_log w ++ [request; request; request])%list ∧
   sent r.2 = (sent w ++
     [reply_text update_message [Lit "⏳ Редактирую текст с помощью AI..."] None;
      edit_text processing_msg
        [Lit "❌ Ошибка при редактировании: "; Val (JStr (str_exn failure))]])%list).
Proof.
  intros H1 H2 Hp Hfail. cbv zeta.
  rewrite handle_message_flags, H1, H2.
  unfold BotHandlers._handle_ai_edit_input.
  rewrite bind_run, pop_flag_run. cbv beta iota.
  rewrite bind_run, get_run. cbn [storage with_user_data]. rewrite Hp.
  cbv beta iota. unfold try_local. rewrite tg_run.
  cbn [env tg_calls sent with_user_data].
  destruct (telegram (env w) (tg_calls w)) as [msg0|] eqn:T0.
  - (* the status message could not be sent *)
    unfold try_except, raise. rewrite tg_run. cbn [env tg_calls sent with_sent with_user_data].
    unfold waiting.
    destruct (telegram (env w) (S (tg_calls w)));
      cbn [fst snd user_data storage with_sent with_user_data];
      rewrite lookup_delete_eq; by repeat split.
  - rewrite bind_run. unfold GeminiService.edit_text_with_instruction.
    rewrite text_attempts_fail by exact Hfail.
    cbn [env text_log with_sent with_user_data].
    unfold try_except. rewrite tg_run.
    cbn [env tg_calls sent with_sent with_user_data with_text_log].
    unfold waiting.
    destruct (telegram (env w) (S (tg_calls w))) as [msg1|] eqn:T1.
    + rewrite tg_run. cbn [env tg_calls sent with_sent with_user_data with_text_log].
      destruct (telegram (env w) (S (S (tg_calls w))));
        cbn [fst snd user_data storage with_sent with_user_data with_text_log];
        rewrite lookup_delete_eq; by repeat split.
    + cbn [fst snd user_data storage text_log sent with_sent with_user_data with_text_log].
      rewrite lookup_delete_eq, <- app_assoc. by repeat split.
Qed.

Lemma ai_edit_backend_exhausted_witness :
  waiting "waiting_for_ai_edit"
    (BotHandlers.handle_message (Some shorter) awaiting_instruction_world).2 = false ∧
  storage (BotHandlers.handle_message (Some shorter) awaiting_instruction_world).2
    = storage awaiting_instruction_world ∧
  (BotHandlers.handle_message (Some shorter) awaiting_instruction_world).1 = inr tt.
Proof.
  destruct (ai_edit_backend_exhausted awaiting_instruction_world shorter
              {| text := JStr "Short text"; image := [x01; x02; x03]; chat_id := 42;
                 original_text := JStr "Breaking: X happened";
                 message_id := JNull |})
    as (Hflag & Hstore & Hsent).
  - reflexivity.
  - reflexivity.
  - vm_compute. reflexivity.
  - intros i Hi. destruct i as [|[|[|i]]]; [reflexivity..|lia].
  - split; [exact Hflag|]. split; [exact Hstore|].
    apply Hsent; reflexivity.
Defined.

Lemma regenerate_dispatch (query : CallbackQuery) (message : Message) (w : World) :
  cq_data query = "regenerate_image" →
  cq_message query = Some message →
  telegram (env w) (tg_calls w) = None →
  BotHandlers.handle_callback query w =
  BotHandlers._handle_regenerate_image query
    (with_sent (sent w ++ [answer None false]) (S (tg_calls w)) w).
Proof.
  intros Hd Hm Ht. unfold BotHandlers.handle_callback.
  rewrite bind_run, tg_run, Ht. cbv beta iota.
  rewrite bind_run. unfold query_chat_id. rewrite Hm, Hd. reflexivity.
Qed.

(** C8, as the code has it.  With a record for the chat and a transport
    that takes every call: if the text model gives the prompt within its
    three attempts, [regenerate_image] replaces the image through
    [update_image] by a non-empty one, which is the placeholder when the
    three attempts on the image model fail; if the three attempts for the
    prompt fail, the store is left as it was and the error is reported. *)
Theorem regenerate_image_outcome (w : World) (query : CallbackQuery)
    (message : Message) (p : PostData) :
  cq_data query = "regenerate_image" →
  cq_message query = Some message →
  _posts (storage w) !! msg_chat_id message = Some p →
  (∀ i, telegram (env w) i = None) →
  let r := BotHandlers.handle_callback query w in
  let n := length (text_log w) in
  (∀ k t,
     k < 3 →
     (∀ i, i < k → text_fails (text_model (env w) (n + i)) = true) →
     text_model (env w) (n + k) = text_response t → t ≠ "" →
     ∃ img,
       img ≠ [] ∧
       storage r.2 =
         (PostStorage.update_image (msg_chat_id message) img (storage w)).2 ∧
       _posts (storage r.2) !! msg_chat_id message = Some (set_image img p) ∧
       ((∀ i, i < 3 →
           image_fails (image_model (env w) (length (image_log w) + i)) = true) →
        img = placeholder_image (env w))) ∧
  ((∀ i, i < 3 → text_fails (text_model (env w) (n + i)) = true) →
   r.1 = inr tt ∧
   storage r.2 = storage w ∧
   last (sent r.2) =
     Some (edit_text processing_msg
             [Lit "❌ Ошибка при генерации изображения: ";
              Val (JStr (str_exn (text_failure (text_model (env w) (n + 2)))))])).
Proof.
  intros Hd Hm Hp Htg r n. subst n.
  assert (Hr : r = BotHandlers.handle_callback query w) by done. clearbody r.
  rewrite (regenerate_dispatch query message) in Hr by done.
  unfold BotHandlers._handle_regenerate_image in Hr.
  rewrite bind_run in Hr. unfold query_chat_id in Hr. rewrite Hm in Hr.
  change (mret (M := M World) (msg_chat_id message) ?w0) with
    (inr (msg_chat_id message) : exn + Z, w0) in Hr.
  cbv beta iota in Hr. rewrite bind_run, get_run in Hr.
  cbn [storage with_sent] in Hr. rewrite Hp in Hr. cbv beta iota in Hr.
  rewrite bind_run, tg_run in Hr. cbn [env tg_calls sent with_sent] in Hr.
  rewrite Htg in Hr. cbv beta iota in Hr. unfold try_local in Hr.
  rewrite tg_run in Hr. cbn [env tg_calls sent with_sent] in Hr.
  rewrite Htg in Hr. cbv beta iota in Hr.
  set (w2 := with_sent _ (S (S (S (tg_calls w)))) _) in Hr.
  assert (env w2 = env w ∧ text_log w2 = text_log w ∧ image_log w2 = image_log w ∧
          storage w2 = storage w) as (E2 & L2 & I2 & S2) by done.
  split.
  - intros k t Hk Hfail Ht Hne.
    rewrite bind_run in Hr. unfold GeminiService.generate_image_prompt in Hr.
    rewrite (text_attempts_succeed _ w2 k t) in Hr by (rewrite ?E2, ?L2; done).
    set (w3 := with_text_log _ w2) in Hr.
    assert (env w3 = env w ∧ image_log w3 = image_log w ∧ storage w3 = storage w)
      as (E3 & I3 & S3) by done.
    rewrite bind_run in Hr.
    destruct (generate_image_total (JStr (py_strip t)) w3) as (img & Himg & Hne').
    assert (same env w3 (GeminiService._generate_image_sync (JStr (py_strip t)) w3).2)
      as E4 by (apply generate_image_keeps; [apply _|apply image_call_same; by intros]).
    assert (same storage w3 (GeminiService._generate_image_sync (JStr (py_strip t)) w3).2)
      as S4 by (apply generate_image_keeps; [apply _|apply image_call_same; by intros]).
    unfold same in E4, S4.
    assert (Hfb : (∀ i, i < 3 →
                     image_fails (image_model (env w) (length (image_log w) + i)) = true) →
                  img = placeholder_image (env w)).
    { intros Hif.
      rewrite generate_image_fallback in Himg by (rewrite E3, I3; exact Hif).
      rewrite E3 in Himg. congruence. }
    destruct (GeminiService._generate_image_sync (JStr (py_strip t)) w3) as [r4 w4].
    cbn [fst snd] in Himg, E4, S4. subst r4.
    rewrite bind_run in Hr. cbn [seek0] in Hr.
    change (mret (M := M World) img w4) with (inr img : exn + list byte, w4) in Hr.
    cbv beta iota in Hr.
    destruct img as [|b bs]; [done|].
    rewrite bind_run, on_storage_run in Hr.
    rewrite S4, S3, (update_image_run _ _ _ p Hp) in Hr.
    cbn [fst snd] in Hr. rewrite bind_run, tg_run in Hr.
    cbn [env tg_calls with_storage] in Hr. rewrite E4, E3, Htg in Hr.
    cbv beta iota in Hr.
    unfold try_except in Hr. rewrite tg_run in Hr.
    cbn [env tg_calls with_storage with_sent] in Hr. rewrite E4, E3, Htg in Hr.
    exists (b :: bs). rewrite (update_image_run _ _ _ p Hp). subst r.
    cbn [fst snd storage with_sent with_storage _posts].
    split; [done|]. split; [done|].
    split; [|exact Hfb].
    rewrite flushed_posts. cbn [with_posts _posts]. by rewrite lookup_insert_eq.
  - intros Hfail.
    rewrite bind_run in Hr. unfold GeminiService.generate_image_prompt in Hr.
    rewrite text_attempts_fail in Hr by (rewrite ?E2, ?L2; done).
    unfold try_except in Hr. rewrite tg_run in Hr.
    cbn [env tg_calls with_text_log] in Hr. rewrite E2, Htg in Hr. subst r.
    cbn [fst snd storage sent with_sent with_text_log]. rewrite ?E2, ?L2.
    split; [done|]. split; [done|]. by rewrite last_snoc.
Qed.

Lemma regenerate_image_outcome_witness :
  ∃ img, img ≠ [] ∧ img = placeholder_image image_backend_down ∧
         image <$> _posts (storage (BotHandlers.handle_callback regenerate_query
                                      (reviewed_world image_backend_down)).2) !! 42%Z
         = Some img.
Proof.
  destruct (regenerate_image_outcome (reviewed_world image_backend_down)
              regenerate_query
              {| msg_chat_id := 42; msg_text := None; msg_caption := None;
                 msg_photo := []; msg_video := false |}
              {| text := JStr "A prompt";
                 image := placeholder_image image_backend_down; chat_id := 42;
                 original_text := JStr "Breaking: X happened"; message_id := JNull |})
    as [Hok _].
  - reflexivity.
  - reflexivity.
  - vm_compute. reflexivity.
  - intros i. reflexivity.
  - destruct (Hok 0 "A prompt") as (img & Hne & _ & Hlookup & Hfallback).
    + lia.
    + intros i Hi. lia.
    + reflexivity.
    + discriminate.
    + exists img. split; [exact Hne|]. split.
      * apply Hfallback. intros i Hi. reflexivity.
      * cbn [msg_chat_id] in Hlookup. rewrite Hlookup. reflexivity.
Defined.

(** Counterexample to C8 as stated: when the whole backend is down at the
    time of the press, the prompt cannot be written, the error is
    reported, and the record keeps the image it had, which is not the
    placeholder. *)
Lemma regenerate_fails_when_backend_down :
  image <$> _posts (storage (reviewed_world down_after_submission)) !! 42%Z
    = Some [x01; x02; x03] ∧
  image <$> _posts (storage (run_events [on_callback regenerate_query]
                               (reviewed_world down_after_submission))) !! 42%Z
    = Some [x01; x02; x03] ∧
  [x01; x02; x03] ≠ placeholder_image down_after_submission ∧
  last (sent (run_events [on_callback regenerate_query]
                (reviewed_world down_after_submission))) =
    Some (edit_text processing_msg
            [Lit "❌ Ошибка при генерации изображения: ";
             Val (JStr "503 unavailable")]).
Proof. vm_compute. repeat split; try reflexivity. discriminate. Qed.

(** ** New submissions *)

Lemma keeps_elim {A} (R : World → World → Prop) (m : M World A) (w : World) :
  keeps R m → R w (m w).2.
Proof. intros H. apply H. Qed.

(** The report sent when a submission fails. *)
Lemma submission_report_keeps (R : World → World → Prop) `{!PreOrder R} (e : exn) :
  (∀ c, keeps R (tg c)) →
  keeps R
    (try_except
       (tg (edit_text processing_msg
              [Lit ("❌ Ошибка при обработке новости:" +:+ nl);
               Val (JStr (str_exn e));
               Lit (nl +:+ nl +:+ "Попробуйте отправить новость еще раз.")]))
       (λ _, tg (reply_text update_message
                   [Lit ("❌ Ошибка при обработке новости:" +:+ nl);
                    Val (JStr (str_exn e));
                    Lit (nl +:+ nl +:+ "Попробуйте отправить новость еще раз.")]
                   None))).
Proof. intros Htg. apply keeps_try_except; [done|apply Htg|intros; apply Htg]. Qed.

(** What follows [process_news_full] in [handle_message], for an image
    that satisfies [P]. *)
Lemma store_and_preview_keeps (R : World → World → Prop) `{!PreOrder R}
    (chat : Z) (news_text : string) (P : list byte → Prop)
    (result : pyval * option (list byte)) :
  (∀ c, keeps R (tg c)) →
  (∀ post, P (image post) → chat_id post = chat →
     keeps R (on_storage (PostStorage.save chat post))) →
  (∀ img, result.2 = Some img → P img) →
  keeps R
    (image ← seek0 result.2;
     match image with
     | [] => raise empty_image
     | _ =>
         on_storage (PostStorage.save chat
           {| text := result.1; image := image; chat_id := chat;
              original_text := JStr news_text; message_id := JNull |});;
         try_except (tg (delete_message processing_msg)) (λ _, mret tt);;
         BotHandlers._send_post_preview result.1 image
     end).
Proof.
  intros Htg Hsave HP. destruct result as [t [img|]]; cbn [fst snd seek0].
  - change (keeps R match img with
                    | [] => raise empty_image
                    | _ =>
                        on_storage (PostStorage.save chat
                          {| text := t; image := img; chat_id := chat;
                             original_text := JStr news_text; message_id := JNull |});;
                        try_except (tg (delete_message processing_msg)) (λ _, mret tt);;
                        BotHandlers._send_post_preview t img
                    end).
    destruct img as [|b bs]; [by apply keeps_raise|].
    apply keeps_bind; [done|by apply Hsave; [apply HP|]|intros _].
    apply keeps_bind; [done| |intros _; apply Htg].
    apply keeps_try_except; [done|apply Htg|intros; by apply keeps_ret].
  - intros w. rewrite bind_run. cbn. reflexivity.
Qed.

(** [process_news_full] with the user's photo returns that photo. *)
Lemma process_with_user_image (R : World → World → Prop) `{!PreOrder R}
    (news_text : string) (photo : list byte) :
  (∀ c, keeps R (tg c)) →
  (∀ p, keeps R (GeminiService.generate_content_async p)) →
  returns R (λ result, result.2 = Some photo)
    (GeminiService.process_news_full news_text (Some processing_msg) (Some photo)).
Proof.
  intros Htg Htext. unfold GeminiService.process_news_full.
  apply (returns_try_except R); [|intros; by apply returns_raise].
  apply (returns_bind R (λ _, True)); [|intros shortened _].
  { apply (keeps_returns R). by apply text_attempts_keeps. }
  apply (returns_bind R (λ _, True)); [|intros _ _].
  { apply (keeps_returns R). apply Htg. }
  apply (returns_bind R (λ image, image = Some photo)); [|intros image ->].
  { by apply (returns_ret R). }
  by apply (returns_ret R).
Qed.

(** [handle_message] in the default mode: whatever relation the transport
    calls, the backend calls and the [save] of a record with an image in
    [P] keep, the handler keeps, provided the image handed to
    [process_news_full] makes it return an image in [P]. *)
Lemma idle_keeps (R : World → World → Prop) `{!PreOrder R} (message : Message)
    (U : option (list byte) → Prop) (P : list byte → Prop) (w : World) :
  (∀ c, keeps R (tg c)) →
  returns R U
    match msg_photo message with
    | [photo] =>
        if negb (msg_video message) then
          tg get_file;; tg download_as_bytearray;; mret (Some photo)
        else mret None
    | _ => mret None
    end →
  (∀ news_text u, U u →
     returns R (λ result, ∀ img, result.2 = Some img → P img)
       (GeminiService.process_news_full news_text (Some processing_msg) u)) →
  (∀ post, P (image post) → chat_id post = msg_chat_id message →
     keeps R (on_storage (PostStorage.save (msg_chat_id message) post))) →
  waiting "waiting_for_manual_edit" w = false →
  waiting "waiting_for_ai_edit" w = false →
  waiting "waiting_for_image" w = false →
  R w (BotHandlers.handle_message (Some message) w).2.
Proof.
  intros Htg Huser Hproc Hsave H1 H2 H3.
  unfold BotHandlers.handle_message.
  rewrite bind_run, flag_run, H1. cbv beta iota.
  rewrite bind_run, flag_run, H2. cbv beta iota.
  rewrite bind_run, flag_run, H3. cbv beta iota zeta.
  apply keeps_elim.
  match goal with |- keeps _ (if ?c then _ else _) => destruct c end;
    [by apply keeps_ret|].
  apply keeps_bind; [done|apply Htg|intros _].
  apply keeps_try_except; [done| |intros e; by apply submission_report_keeps].
  apply (returns_keeps R (λ _, True)).
  apply (returns_bind R U); [exact Huser|intros u Hu].
  apply (returns_bind R (λ result, ∀ img, result.2 = Some img → P img));
    [by apply Hproc|intros result Hres].
  apply (keeps_returns R).
  by apply (store_and_preview_keeps R _ _ P).
Qed.

Lemma returns_post {A} (R : World → World → Prop) (Q Q' : A → Prop) (m : M World A) :
  (∀ a, Q a → Q' a) → returns R Q m → returns R Q' m.
Proof.
  intros H Hm w. destruct (Hm w) as [Hw Hq]. split; [done|].
  destruct (m w).1; [done|by apply H].
Qed.

Lemma download_returns (R : World → World → Prop) `{!PreOrder R} (photo : list byte) :
  (∀ c, keeps R (tg c)) →
  returns R (λ u, u = Some photo)
    (tg get_file;; tg download_as_bytearray;; mret (Some photo)).
Proof.
  intros Htg.
  apply (returns_bind R (λ _, True)); [apply (keeps_returns R), Htg|intros _ _].
  apply (returns_bind R (λ _, True)); [apply (keeps_returns R), Htg|intros _ _].
  by apply (returns_ret R).
Qed.

Lemma save_first_answer (w : World) (message : Message) (photo : list byte) (t : string) :
  waiting "waiting_for_manual_edit" w = false →
  waiting "waiting_for_ai_edit" w = false →
  waiting "waiting_for_image" w = false →
  msg_photo message = [photo] → msg_video message = false →
  photo ≠ [] →
  nonempty (msg_text message) || nonempty (msg_caption message) = true →
  (∀ i, telegram (env w) i = None) →
  text_model (env w) (length (text_log w)) = text_response t → t ≠ "" →
  let r := BotHandlers.handle_message (Some message) w in
  let news_text :=
    default "" (if nonempty (msg_text message) then msg_text message
                else msg_caption message) in
  r.1 = inr tt ∧
  storage r.2 =
    (PostStorage.save (msg_chat_id message)
       {| text := JStr (py_strip t); image := photo; chat_id := msg_chat_id message;
          original_text := JStr news_text; message_id := JNull |}
       (storage w)).2 ∧
  text_log r.2 = (text_log w ++ [shorten_prompt news_text])%list ∧
  image_log r.2 = image_log w.
Proof.
  intros H1 H2 H3 Hphoto Hvideo Hne Hcand Htg Ht Htne r news_text.
  assert (Hr : r = BotHandlers.handle_message (Some message) w) by done. clearbody r.
  unfold BotHandlers.handle_message in Hr.
  rewrite bind_run, flag_run, H1 in Hr. cbv beta iota in Hr.
  rewrite bind_run, flag_run, H2 in Hr. cbv beta iota in Hr.
  rewrite bind_run, flag_run, H3 in Hr. cbv beta iota zeta in Hr.
  rewrite Hphoto, Hvideo in Hr. fold news_text in Hr.
  replace (nonempty (msg_text message) || true && nonempty (msg_caption message)
           || false && nonempty (msg_caption message)) with true in Hr
    by (destruct (nonempty (msg_text message)), (nonempty (msg_caption message)); done).
  cbn [negb] in Hr.
  rewrite bind_run, tg_run, Htg in Hr. cbv beta iota in Hr.
  unfold try_except in Hr.
  rewrite bind_run, bind_run, tg_run in Hr. cbn [env with_sent] in Hr.
  rewrite Htg in Hr. cbv beta iota in Hr.
  rewrite bind_run, tg_run in Hr. cbn [env with_sent] in Hr.
  rewrite Htg in Hr. cbv beta iota in Hr.
  change (mret (M := M World) (Some photo) ?w0)
    with (inr (Some photo) : exn + option (list byte), w0) in Hr.
  cbv beta iota in Hr.
  rewrite bind_run in Hr. unfold GeminiService.process_news_full in Hr.
  unfold try_except in Hr. rewrite bind_run in Hr.
  unfold GeminiService.shorten_news in Hr.
  rewrite (text_attempts_succeed _ _ 0 t) in Hr;
    [|lia|intros i Hi; lia|cbn [env text_log with_sent]; by rewrite Nat.add_0_r|done].
  cbv beta iota in Hr. rewrite bind_run, tg_run in Hr.
  cbn [env with_sent with_text_log] in Hr. rewrite Htg in Hr. cbv beta iota in Hr.
  rewrite bind_run in Hr.
  change (mret (M := M World) (Some photo) ?w0)
    with (inr (Some photo) : exn + option (list byte), w0) in Hr.
  cbv beta iota in Hr.
  change (mret (M := M World) (JStr (py_strip t), Some photo) ?w0)
    with (inr (JStr (py_strip t), Some photo) : exn + (pyval * option (list byte)), w0)
    in Hr.
  cbv beta iota in Hr. cbn [fst snd seek0] in Hr.
  rewrite bind_run in Hr.
  change (mret (M := M World) photo ?w0) with (inr photo : exn + list byte, w0) in Hr.
  cbv beta iota in Hr.
  destruct photo as [|b bs]; [done|].
  rewrite bind_run, on_storage_run in Hr. rewrite save_run in Hr.
  cbn [fst snd] in Hr.
  rewrite bind_run in Hr. unfold try_except in Hr. rewrite tg_run in Hr.
  cbn [env with_sent with_text_log with_storage] in Hr. rewrite Htg in Hr.
  cbv beta iota in Hr.
  unfold BotHandlers._send_post_preview in Hr. rewrite tg_run in Hr.
  cbn [env with_sent with_text_log with_storage] in Hr. rewrite Htg in Hr.
  subst r. rewrite save_run. by repeat split.
Qed.

(** The run of a submission that cannot use the photo of the message,
    when the transport and the text model answer. *)
Lemma generation_answer (w : World) (message : Message) (t1 t2 : string) :
  waiting "waiting_for_manual_edit" w = false →
  waiting "waiting_for_ai_edit" w = false →
  waiting "waiting_for_image" w = false →
  1 < length (msg_photo message) ∨
    (msg_photo message ≠ [] ∧ msg_video message = true) →
  nonempty (msg_text message) || nonempty (msg_caption message) = true →
  (∀ i, telegram (env w) i = None) →
  text_model (env w) (length (text_log w)) = text_response t1 → t1 ≠ "" →
  text_model (env w) (S (length (text_log w))) = text_response t2 → t2 ≠ "" →
  let r := BotHandlers.handle_message (Some message) w in
  let news_text :=
    default "" (if nonempty (msg_text message) then msg_text message
                else msg_caption message) in
  let generation := GeminiService._generate_image_sync (JStr (py_strip t2)) w in
  ∃ img,
    generation.1 = inr (Some img) ∧
    r.1 = inr tt ∧
    storage r.2 =
      (PostStorage.save (msg_chat_id message)
         {| text := JStr (py_strip t1); image := img; chat_id := msg_chat_id message;
            original_text := JStr news_text; message_id := JNull |}
         (storage w)).2 ∧
    text_log r.2 = (text_log w ++ [shorten_prompt news_text;
                                   image_prompt_prompt (JStr (py_strip t1))])%list ∧
    image_log r.2 = image_log generation.2 ∧
    sent r.2 = (sent w ++
                [reply_text update_message [Lit "⏳ Обрабатываю новость..."] None;
                 edit_text processing_msg [Lit "Генерирую изображение"];
                 delete_message processing_msg;
                 reply_photo update_message img (JStr (py_strip t1))
                   Keyboards.get_post_actions_keyboard])%list.
Proof.
  intros H1 H2 H3 Hphoto Hcand Htg Ht1 Hne1 Ht2 Hne2 r news_text generation.
  assert (Hr : r = BotHandlers.handle_message (Some message) w) by done. clearbody r.
  unfold BotHandlers.handle_message in Hr.
  rewrite bind_run, flag_run, H1 in Hr. cbv beta iota in Hr.
  rewrite bind_run, flag_run, H2 in Hr. cbv beta iota in Hr.
  rewrite bind_run, flag_run, H3 in Hr. cbv beta iota zeta in Hr.
  fold news_text in Hr.
  assert (Hsub : negb (nonempty (msg_text message)
                       || match msg_photo message with [] => false | _ => true end
                          && nonempty (msg_caption message)
                       || msg_video message && nonempty (msg_caption message)) = false).
  { destruct Hphoto as [Hl|[Hn _]];
      destruct (msg_photo message) as [|a l]; cbn in *; try lia; try done;
      destruct (nonempty (msg_text message)), (nonempty (msg_caption message)); done. }
  rewrite Hsub in Hr.
  assert (Huser : ∀ w0,
    match msg_photo message with
    | [photo] =>
        if negb (msg_video message) then
          tg get_file;; tg download_as_bytearray;; mret (Some photo)
        else mret None
    | _ => mret None
    end w0 = (inr None, w0)).
  { intros w0. destruct Hphoto as [Hl|[Hn Hv]].
    - by destruct (msg_photo message) as [|a [|b l]]; cbn in Hl; try lia.
    - rewrite Hv. by destruct (msg_photo message) as [|a [|b l]]. }
  rewrite bind_run, tg_run, Htg in Hr. cbv beta iota in Hr.
  unfold try_except in Hr.
  rewrite bind_run, Huser in Hr.
  rewrite bind_run in Hr. unfold GeminiService.process_news_full in Hr.
  unfold try_except in Hr. rewrite bind_run in Hr.
  unfold GeminiService.shorten_news in Hr.
  rewrite (text_attempts_succeed _ _ 0 t1) in Hr;
    [|lia|intros i Hi; lia|cbn [env text_log with_sent]; by rewrite Nat.add_0_r|done].
  cbv beta iota in Hr. rewrite bind_run, tg_run in Hr.
  cbn [env with_sent with_text_log tg_calls] in Hr. rewrite Htg in Hr. cbv beta iota in Hr.
  rewrite bind_run, bind_run in Hr.
  unfold GeminiService.generate_image_prompt in Hr.
  rewrite (text_attempts_succeed _ _ 0 t2) in Hr;
    [|lia|intros i Hi; lia
     |cbn [env text_log with_sent with_text_log]; rewrite length_app, Nat.add_0_r;
      cbn [length replicate]; by rewrite Nat.add_1_r
     |done].
  cbv beta iota in Hr.
  match type of Hr with
  | context [GeminiService._generate_image_sync _ ?w0] => set (w3 := w0) in Hr
  end.
  assert (env w3 = env w ∧ image_log w3 = image_log w ∧ storage w3 = storage w ∧
          tg_calls w3 = S (S (tg_calls w)) ∧
          sent w3 = (sent w ++
                     [reply_text update_message [Lit "⏳ Обрабатываю новость..."] None;
                      edit_text processing_msg [Lit "Генерирую изображение"]])%list ∧
          text_log w3 = (text_log w ++ [shorten_prompt news_text;
                                        image_prompt_prompt (JStr (py_strip t1))])%list)
    as (E3 & I3 & S3 & N3 & T3 & L3).
  { subst w3. cbn [env image_log storage tg_calls sent text_log with_text_log with_sent
                   replicate].
    by rewrite <- !app_assoc. }
  destruct (generate_image_total (JStr (py_strip t2)) w3) as (img & Himg & Hne).
  destruct (generate_image_frame (JStr (py_strip t2)) w3 w E3 I3) as [F1 F2].
  assert (∀ X (f : World → X), (∀ l w0, f (with_image_log l w0) = f w0) →
            f (GeminiService._generate_image_sync (JStr (py_strip t2)) w3).2 = f w3)
    as Hsame.
  { intros X f Hf.
    exact (generate_image_keeps (same f) _ (image_call_same f _ Hf) w3). }
  pose proof (Hsame _ env ltac:(done)) as E4.
  pose proof (Hsame _ storage ltac:(done)) as S4.
  pose proof (Hsame _ tg_calls ltac:(done)) as N4.
  pose proof (Hsame _ sent ltac:(done)) as T4.
  pose proof (Hsame _ text_log ltac:(done)) as L4.
  clear Hsame. clearbody w3.
  destruct (GeminiService._generate_image_sync (JStr (py_strip t2)) w3) as [r4 w4].
  cbn [fst snd] in *. subst r4.
  change (mret (M := M World) (Some img) ?w0)
    with (inr (Some img) : exn + option (list byte), w0) in Hr.
  cbv beta iota in Hr.
  change (mret (M := M World) (JStr (py_strip t1), Some img) ?w0)
    with (inr (JStr (py_strip t1), Some img) : exn + (pyval * option (list byte)), w0)
    in Hr.
  cbv beta iota in Hr. cbn [fst snd seek0] in Hr.
  rewrite bind_run in Hr.
  change (mret (M := M World) img ?w0) with (inr img : exn + list byte, w0) in Hr.
  cbv beta iota in Hr.
  destruct img as [|b bs]; [done|].
  rewrite bind_run, on_storage_run in Hr. rewrite save_run in Hr.
  cbn [fst snd] in Hr.
  rewrite bind_run in Hr. unfold try_except in Hr. rewrite tg_run in Hr.
  cbn [env with_sent with_storage tg_calls] in Hr. rewrite E4, E3, Htg in Hr.
  cbv beta iota in Hr.
  unfold BotHandlers._send_post_preview in Hr. rewrite tg_run in Hr.
  cbn [env with_sent with_storage tg_calls] in Hr. rewrite E4, E3, Htg in Hr.
  exists (b :: bs). subst r generation.
  cbn [fst snd storage with_sent with_storage text_log image_log sent].
  rewrite save_run, S4, S3, L4, L3, T4, T3, F2, <- F1. cbn [snd].
  rewrite <- !app_assoc. by repeat split.
Qed.

(** A submission in the default mode whose photo comes in one size, with
    no video.  No request goes to the image model, and a record, if one is
    saved, holds the bytes of the photo.  When the caption is there, the
    photo is not empty, the transport takes the calls and the first
    summary comes back, the record saved is the stripped summary with the
    photo, after the one request for the summary. *)
Theorem one_size_photo_is_stored (w : World) (message : Message) (photo : list byte) :
  waiting "waiting_for_manual_edit" w = false →
  waiting "waiting_for_ai_edit" w = false →
  waiting "waiting_for_image" w = false →
  msg_photo message = [photo] → msg_video message = false →
  let r := BotHandlers.handle_message (Some message) w in
  let chat := msg_chat_id message in
  let news_text :=
    default "" (if nonempty (msg_text message) then msg_text message
                else msg_caption message) in
  image_log r.2 = image_log w ∧
  (storage r.2 = storage w ∨
   ∃ post, (image post = photo ∧ chat_id post = chat) ∧
           storage r.2 = (PostStorage.save chat post (storage w)).2) ∧
  (∀ t, photo ≠ [] →
        nonempty (msg_text message) || nonempty (msg_caption message) = true →
        (∀ i, telegram (env w) i = None) →
        text_model (env w) (length (text_log w)) = text_response t → t ≠ "" →
        r.1 = inr tt ∧
        storage r.2 =
          (PostStorage.save chat
             {| text := JStr (py_strip t); image := photo; chat_id := chat;
                original_text := JStr news_text; message_id := JNull |}
             (storage w)).2 ∧
        text_log r.2 = (text_log w ++ [shorten_prompt news_text])%list).
Proof.
  intros H1 H2 H3 Hphoto Hvideo r chat news_text. subst r chat news_text.
  split; [|split].
  - apply (idle_keeps (same image_log) message (λ u, u = Some photo) (λ _, True));
      try done.
    + intros c. apply tg_same. by intros.
    + rewrite Hphoto, Hvideo. apply download_returns; [apply _|].
      intros c. apply tg_same. by intros.
    + intros news_text u ->.
      apply (returns_post _ (λ result, result.2 = Some photo)); [done|].
      apply process_with_user_image; [apply _| |].
      * intros c. apply tg_same. by intros.
      * intros p. apply text_call_same. by intros.
    + intros post _ _. apply on_storage_same. by intros.
  - apply (idle_keeps
             (saved_or_same (msg_chat_id message)
                (λ post, image post = photo ∧ chat_id post = msg_chat_id message))
             message (λ u, u = Some photo) (λ img, img = photo)); try done.
    + intros c. apply (keeps_weaken (same storage)); [by left|].
      apply tg_same. by intros.
    + rewrite Hphoto, Hvideo. apply download_returns; [apply _|].
      intros c. apply (keeps_weaken (same storage)); [by left|].
      apply tg_same. by intros.
    + intros news_text u ->.
      apply (returns_post _ (λ result, result.2 = Some photo)).
      { intros result Hres img Himg. congruence. }
      apply process_with_user_image; [apply _| |].
      * intros c. apply (keeps_weaken (same storage)); [by left|].
        apply tg_same. by intros.
      * intros p. apply (keeps_weaken (same storage)); [by left|].
        apply text_call_same. by intros.
    + intros post Hpost Hchat. by apply save_saved.
  - intros t Hne Hcand Htg Ht Htne.
    destruct (save_first_answer w message photo t) as (Hret & Hstore & Hlog & _);
      done.
Qed.

Lemma one_size_photo_is_stored_witness :
  msg_photo photo_message = [[xff; xd8; xff]] ∧ msg_video photo_message = false ∧
  image_log (BotHandlers.handle_message (Some photo_message) fresh_world).2 = [] ∧
  storage (BotHandlers.handle_message (Some photo_message) fresh_world).2 =
    (PostStorage.save 42
       {| text := JStr "Short text"; image := [xff; xd8; xff]; chat_id := 42;
          original_text := JStr "Breaking: X happened"; message_id := JNull |}
       (storage fresh_world)).2.
Proof.
  split; [reflexivity|]. split; [reflexivity|].
  destruct (one_size_photo_is_stored fresh_world photo_message [xff; xd8; xff])
    as (Hlog & _ & Hsaved); [reflexivity..|].
  split; [exact Hlog|].
  apply (Hsaved " Short text "); [discriminate|reflexivity|reflexivity|reflexivity|
                                   discriminate].
Defined.

(** A submission in the default mode whose photo comes in several sizes,
    or next to a video, when the transport takes the calls and the text
    model answers the requests for the summary and for the image prompt.
    The photo is not downloaded.  The image of the record saved is the
    one [_generate_image_sync] returns for that prompt: it is not empty,
    one to three requests for the prompt went to the image model, and it
    is the placeholder when the three of them fail.  The preview shows
    that image. *)
Theorem unusable_photo_is_replaced (w : World) (message : Message) (t1 t2 : string) :
  waiting "waiting_for_manual_edit" w = false →
  waiting "waiting_for_ai_edit" w = false →
  waiting "waiting_for_image" w = false →
  1 < length (msg_photo message) ∨
    (msg_photo message ≠ [] ∧ msg_video message = true) →
  nonempty (msg_text message) || nonempty (msg_caption message) = true →
  (∀ i, telegram (env w) i = None) →
  text_model (env w) (length (text_log w)) = text_response t1 → t1 ≠ "" →
  text_model (env w) (S (length (text_log w))) = text_response t2 → t2 ≠ "" →
  let r := BotHandlers.handle_message (Some message) w in
  let chat := msg_chat_id message in
  let news_text :=
    default "" (if nonempty (msg_text message) then msg_text message
                else msg_caption message) in
  let prompt := JStr (py_strip t2) in
  ∃ img k,
    (GeminiService._generate_image_sync prompt w).1 = inr (Some img) ∧
    img ≠ [] ∧
    k < 3 ∧ image_log r.2 = (image_log w ++ replicate (S k) prompt)%list ∧
    ((∀ i, i < 3 →
        image_fails (image_model (env w) (length (image_log w) + i)) = true) →
     img = placeholder_image (env w)) ∧
    r.1 = inr tt ∧
    storage r.2 =
      (PostStorage.save chat
         {| text := JStr (py_strip t1); image := img; chat_id := chat;
            original_text := JStr news_text; message_id := JNull |}
         (storage w)).2 ∧
    sent r.2 = (sent w ++
                [reply_text update_message [Lit "⏳ Обрабатываю новость..."] None;
                 edit_text processing_msg [Lit "Генерирую изображение"];
                 delete_message processing_msg;
                 reply_photo update_message img (JStr (py_strip t1))
                   Keyboards.get_post_actions_keyboard])%list.
Proof.
  intros H1 H2 H3 Hphoto Hcand Htg Ht1 Hne1 Ht2 Hne2 r chat news_text prompt.
  destruct (generation_answer w message t1 t2)
    as (img & Himg & Hret & Hstore & _ & Hlog & Hsent); try done.
  destruct (generate_image_total prompt w) as (img' & Himg' & Hne).
  destruct (generate_image_log prompt w eq_refl) as (k & Hk & Hreq).
  assert (img' = img) as -> by (subst prompt; congruence).
  exists img, k. split; [done|]. split; [done|]. split; [done|].
  split; [by subst r; rewrite Hlog|]. split; [|done].
  intros Hfail. rewrite (generate_image_fallback prompt w Hfail) in Himg'. congruence.
Qed.

Lemma unusable_photo_is_replaced_witness :
  1 < length (msg_photo two_sizes_message) ∧
  ∃ img,
    (GeminiService._generate_image_sync (JStr "Short text") fresh_world).1
      = inr (Some img) ∧
    storage (BotHandlers.handle_message (Some two_sizes_message) fresh_world).2 =
      (PostStorage.save 42
         {| text := JStr "Short text"; image := img; chat_id := 42;
            original_text := JStr "Breaking: X happened"; message_id := JNull |}
         (storage fresh_world)).2.
Proof.
  split; [cbn; lia|].
  destruct (unusable_photo_is_replaced fresh_world two_sizes_message
              " Short text " " Short text ")
    as (img & k & Himg & _ & _ & _ & _ & _ & Hstore & _);
    [reflexivity|reflexivity|reflexivity|left; cbn; lia|reflexivity|reflexivity|
     reflexivity|discriminate|reflexivity|discriminate|].
  exists img. split; [exact Himg|exact Hstore].
Defined.

(** C9 does not hold of the code.  [two_sizes_message] is a submission
    with a caption, no video and exactly one photo, which arrives in two
    sizes as photos do.  The handler does not download the photo: it asks
    the image model, and the record it saves holds the generated bytes,
    which are neither size of the photo. *)
Theorem photo_in_two_sizes_is_not_used :
  (BotHandlers.handle_message (Some two_sizes_message) fresh_world).1 = inr tt ∧
  sent (BotHandlers.handle_message (Some two_sizes_message) fresh_world).2 =
    [reply_text update_message [Lit "⏳ Обрабатываю новость..."] None;
     edit_text processing_msg [Lit "Генерирую изображение"];
     delete_message processing_msg;
     reply_photo update_message [x01; x02; x03] (JStr "Short text")
       Keyboards.get_post_actions_keyboard] ∧
  image_log (BotHandlers.handle_message (Some two_sizes_message) fresh_world).2 =
    [JStr "Short text"] ∧
  _posts (storage (BotHandlers.handle_message (Some two_sizes_message) fresh_world).2)
    !! 42%Z =
    Some {| text := JStr "Short text"; image := [x01; x02; x03]; chat_id := 42;
            original_text := JStr "Breaking: X happened"; message_id := JNull |} ∧
  [x01; x02; x03] ∉ msg_photo two_sizes_message.
Proof.
  split; [|split; [|split; [|split]]].
  - vm_compute. reflexivity.
  - vm_compute. reflexivity.
  - vm_compute. reflexivity.
  - vm_compute. reflexivity.
  - intros H. cbn in H. rewrite !elem_of_cons in H.
    destruct H as [H|[H|H]]; [discriminate H..|by apply elem_of_nil in H].
Qed.

(** * Further properties of the code *)

(** ** The record store *)

Lemma well_keyed_rekey (m : gmap Z PostData) :
  well_keyed m →
  foldl (λ (m : gmap Z PostData) kv, <[kv.1 := rekey kv]> m) ∅ (map_to_list m) = m.
Proof.
  intros Hk. apply map_eq. intros c. rewrite reloaded_lookup.
  destruct (m !! c) as [p|] eqn:E; [|done]. cbn.
  specialize (Hk c p E). destruct p. cbn in *. by subst.
Qed.

Lemma init_absent (d : write_outcome) :
  PostStorage.__init__ Absent d =
  (inr tt, {| storage_file := Absent; disk := d; _posts := ∅ |}).
Proof. reflexivity. Qed.

Lemma init_in_sync (s : PostStorage) :
  in_sync s → well_keyed (_posts s) →
  PostStorage.__init__ (storage_file s) (disk s) = (inr tt, s).
Proof.
  intros [Hs|[Hf Hm]] Hk; destruct s as [f d m]; cbn in *; subst.
  - rewrite init_after_dump. by rewrite well_keyed_rekey.
  - reflexivity.
Qed.

(** A restart gives the store back: when the snapshot is in step with the
    map and each record carries its own chat id, constructing the store
    anew from the file raises nothing and yields the same map and the
    same file. *)
Theorem restart_restores_store (s : PostStorage) :
  in_sync s → well_keyed (_posts s) →
  PostStorage.__init__ (storage_file s) (disk s) = (inr tt, s).
Proof. intros Hs Hk. by apply init_in_sync. Qed.

Lemma sample_store_well_keyed : well_keyed (_posts sample_store).
Proof.
  intros c p H. unfold sample_store in H. rewrite save_run in H. cbn in H.
  destruct (decide (c = 42%Z)) as [->|Hne].
  - rewrite lookup_insert_eq in H. injection H as <-. reflexivity.
  - rewrite lookup_insert_ne in H by done. discriminate H.
Qed.

Lemma restart_restores_store_witness :
  PostStorage.__init__ (storage_file sample_store) (disk sample_store)
  = (inr tt, sample_store).
Proof.
  apply (restart_restores_store sample_store).
  - left. reflexivity.
  - exact sample_store_well_keyed.
Defined.

Lemma delete_run_present (c : Z) (s : PostStorage) :
  is_Some (_posts s !! c) →
  PostStorage.delete c s = (inr tt, flushed (with_posts (delete c) s)).
Proof.
  intros H. unfold PostStorage.delete. rewrite bind_run. unfold gets.
  rewrite bool_decide_true by done. rewrite bind_run. unfold modify.
  apply save_to_disk_run.
Qed.

Lemma delete_run_absent (c : Z) (s : PostStorage) :
  _posts s !! c = None → PostStorage.delete c s = (inr tt, s).
Proof.
  intros H. unfold PostStorage.delete. rewrite bind_run. unfold gets.
  rewrite bool_decide_false; [done|]. rewrite H. by intros [? ?].
Qed.

(** [delete]: for a chat without a record nothing changes, the file is not
    even rewritten.  For a chat with a record, the record is gone from the
    map and the other chats keep theirs; where the file can be written the
    snapshot is rewritten from the new map, and after a restart the record
    is still gone. *)
Theorem delete_outcome (s : PostStorage) (c : Z) :
  (_posts s !! c = None → PostStorage.delete c s = (inr tt, s)) ∧
  (is_Some (_posts s !! c) →
   (PostStorage.delete c s).1 = inr tt ∧
   (PostStorage.get c (PostStorage.delete c s).2).1 = inr None ∧
   (∀ c', c' ≠ c →
      _posts (PostStorage.delete c s).2 !! c' = _posts s !! c') ∧
   (disk s = Written →
    storage_file (PostStorage.delete c s).2 =
      Content (JObj (dump_entry <$> map_to_list (_posts (PostStorage.delete c s).2))) ∧
    (PostStorage.get c
       (PostStorage.__init__ (storage_file (PostStorage.delete c s).2) Written).2).1
    = inr None)).
Proof.
  split; [apply delete_run_absent|]. intros H.
  rewrite delete_run_present by done. cbn [fst snd].
  rewrite flushed_posts. cbn [with_posts _posts].
  split; [done|]. split; [cbn; by rewrite flushed_posts; cbn; rewrite lookup_delete_eq|].
  split; [by intros c' Hc; rewrite lookup_delete_ne|]. intros Hd.
  rewrite flushed_written by done. cbn [storage_file with_posts _posts].
  split; [done|].
  rewrite init_after_dump. cbn. by rewrite reloaded_lookup, lookup_delete_eq.
Qed.

Lemma delete_outcome_witness :
  PostStorage.delete 7 sample_store = (inr tt, sample_store) ∧
  (PostStorage.get 42 (PostStorage.delete 42 sample_store).2).1 = inr None ∧
  (PostStorage.get 42
     (PostStorage.__init__
        (storage_file (PostStorage.delete 42 sample_store).2) Written).2).1
  = inr None.
Proof.
  destruct (delete_outcome sample_store 7) as [Habsent _].
  destruct (delete_outcome sample_store 42) as [_ Hpresent].
  split; [apply Habsent; reflexivity|].
  destruct Hpresent as (_ & Hgone & _ & Hfile); [by exists sample_post|].
  split; [exact Hgone|]. apply Hfile. reflexivity.
Defined.

(** [clear] empties the map in every case.  It removes the snapshot file,
    so that a restart finds an empty store; when the file cannot be
    removed the call raises, with the map already emptied. *)
Theorem clear_outcome (s : PostStorage) :
  _posts (PostStorage.clear s).2 = ∅ ∧
  (storage_file s ≠ Unreadable false →
   PostStorage.clear s =
     (inr tt, {| storage_file := Absent; disk := disk s; _posts := ∅ |}) ∧
   PostStorage.__init__ (storage_file (PostStorage.clear s).2) (disk s)
   = (inr tt, {| storage_file := Absent; disk := disk s; _posts := ∅ |})) ∧
  (storage_file s = Unreadable false →
   (PostStorage.clear s).1 = inl (Exn "OSError" "Operation not permitted") ∧
   storage_file (PostStorage.clear s).2 = Unreadable false).
Proof.
  unfold PostStorage.clear, os_remove. destruct s as [f d m].
  split; [|split].
  - by destruct f as [|[|]|data].
  - intros Hf. by destruct f as [|[|]|data].
  - cbn. by intros ->.
Qed.

Lemma clear_outcome_witness :
  PostStorage.clear sample_store
    = (inr tt, {| storage_file := Absent; disk := Written; _posts := ∅ |}) ∧
  (PostStorage.clear
     {| storage_file := Unreadable false; disk := Written;
        _posts := _posts sample_store |}).1
  = inl (Exn "OSError" "Operation not permitted").
Proof.
  split.
  - apply (clear_outcome sample_store). discriminate.
  - apply (clear_outcome {| storage_file := Unreadable false; disk := Written;
                            _posts := _posts sample_store |}). reflexivity.
Defined.

Lemma well_keyed_insert (m : gmap Z PostData) (c : Z) (p : PostData) :
  well_keyed m → chat_id p = c → well_keyed (<[c := p]> m).
Proof.
  intros Hk Hp c' p' H. destruct (decide (c = c')) as [<-|Hne].
  - rewrite lookup_insert_eq in H. by injection H as <-.
  - rewrite lookup_insert_ne in H by done. by apply Hk.
Qed.

Lemma well_keyed_delete (m : gmap Z PostData) (c : Z) :
  well_keyed m → well_keyed (delete c m).
Proof.
  intros Hk c' p' H. apply Hk. destruct (decide (c = c')) as [<-|Hne].
  - by rewrite lookup_delete_eq in H.
  - by rewrite lookup_delete_ne in H.
Qed.

Lemma consistent_flushed (f : gmap Z PostData → gmap Z PostData) (s : PostStorage) :
  disk s = Written → well_keyed (f (_posts s)) →
  consistent (flushed (with_posts f s)).
Proof.
  intros Hd Hk. rewrite flushed_written by done.
  split; [done|]. split; [by left|done].
Qed.

Lemma consistent_save (c : Z) (p : PostData) (s : PostStorage) :
  chat_id p = c → consistent s → consistent (PostStorage.save c p s).2.
Proof.
  intros Hp (Hd & _ & Hk). rewrite save_run. apply consistent_flushed; [done|].
  by apply well_keyed_insert.
Qed.

Lemma consistent_delete (c : Z) (s : PostStorage) :
  consistent s → consistent (PostStorage.delete c s).2.
Proof.
  intros Hs. destruct (_posts s !! c) as [p|] eqn:E.
  - rewrite delete_run_present by done. destruct Hs as (Hd & _ & Hk).
    apply consistent_flushed; [done|]. by apply well_keyed_delete.
  - by rewrite delete_run_absent.
Qed.

Lemma consistent_update_text (c : Z) (t : pyval) (s : PostStorage) :
  consistent s → consistent (PostStorage.update_text c t s).2.
Proof.
  intros Hs. destruct (_posts s !! c) as [p|] eqn:E.
  - rewrite (update_text_run _ _ _ p) by done. destruct Hs as (Hd & _ & Hk).
    apply consistent_flushed; [done|]. apply well_keyed_insert; [done|].
    exact (Hk c p E).
  - by rewrite (proj1 (update_absent_run c t [] s E)).
Qed.

Lemma consistent_update_image (c : Z) (img : list byte) (s : PostStorage) :
  consistent s → consistent (PostStorage.update_image c img s).2.
Proof.
  intros Hs. destruct (_posts s !! c) as [p|] eqn:E.
  - rewrite (update_image_run _ _ _ p) by done. destruct Hs as (Hd & _ & Hk).
    apply consistent_flushed; [done|]. apply well_keyed_insert; [done|].
    exact (Hk c p E).
  - by rewrite (proj2 (update_absent_run c JNull img s E)).
Qed.

Lemma consistent_clear (s : PostStorage) :
  consistent s → consistent (PostStorage.clear s).2.
Proof.
  intros (Hd & [Hs|[Hf Hm]] & _); destruct s as [f d m]; cbn in *; subst;
    (split; [done|]); (split; [right; by split|]); by intros c p H.
Qed.

(** Every operation of the store keeps it consistent: the snapshot in
    step with the map and every record under its own chat id ([save] being
    given a record that carries the chat id it is saved under).  With such
    a store a restart loses nothing. *)
Theorem store_operations_keep_consistency (s : PostStorage) (c : Z) (p : PostData)
    (t : pyval) (img : list byte) :
  consistent s →
  (chat_id p = c → consistent (PostStorage.save c p s).2) ∧
  consistent (PostStorage.delete c s).2 ∧
  consistent (PostStorage.update_text c t s).2 ∧
  consistent (PostStorage.update_image c img s).2 ∧
  consistent (PostStorage.clear s).2 ∧
  (PostStorage.get c s).2 = s.
Proof.
  intros Hs. split; [by intros; apply consistent_save|].
  split; [by apply consistent_delete|]. split; [by apply consistent_update_text|].
  split; [by apply consistent_update_image|]. split; [by apply consistent_clear|].
  done.
Qed.

Lemma sample_store_consistent : consistent sample_store.
Proof.
  split; [reflexivity|]. split; [left; reflexivity|]. exact sample_store_well_keyed.
Qed.

Lemma store_operations_keep_consistency_witness :
  consistent sample_store ∧
  consistent (PostStorage.save 42 sample_post sample_store).2 ∧
  consistent (PostStorage.delete 42 sample_store).2.
Proof.
  split; [exact sample_store_consistent|].
  destruct (store_operations_keep_consistency sample_store 42 sample_post JNull [])
    as (Hsave & Hdelete & _); [exact sample_store_consistent|].
  split; [apply Hsave; reflexivity|exact Hdelete].
Defined.

(** An edit is durable: after [update_text] or [update_image] on a chat
    with a record, in a consistent store, a restart finds the record with
    the new field and every other field as it was. *)
Theorem update_survives_restart (s : PostStorage) (c : Z) (p : PostData)
    (t : pyval) (img : list byte) :
  consistent s → _posts s !! c = Some p →
  (PostStorage.get c
     (PostStorage.__init__ (storage_file (PostStorage.update_text c t s).2)
        Written).2).1
  = inr (Some (set_text t p)) ∧
  (PostStorage.get c
     (PostStorage.__init__ (storage_file (PostStorage.update_image c img s).2)
        Written).2).1
  = inr (Some (set_image img p)).
Proof.
  intros Hs Hp.
  destruct (consistent_update_text c t s Hs) as (D1 & S1 & K1).
  destruct (consistent_update_image c img s Hs) as (D2 & S2 & K2).
  rewrite <- D1 at 1. rewrite <- D2 at 1.
  rewrite (init_in_sync _ S1 K1), (init_in_sync _ S2 K2).
  rewrite (update_text_run _ _ _ p Hp), (update_image_run _ _ _ p Hp).
  cbn [fst snd PostStorage.get gets]. rewrite !flushed_posts.
  cbn [with_posts _posts]. by rewrite !lookup_insert_eq.
Qed.

Lemma update_survives_restart_witness :
  consistent sample_store ∧
  (PostStorage.get 42
     (PostStorage.__init__
        (storage_file (PostStorage.update_text 42 (JStr "new") sample_store).2)
        Written).2).1
  = inr (Some (set_text (JStr "new") sample_post)).
Proof.
  split; [exact sample_store_consistent|].
  apply (update_survives_restart sample_store 42 sample_post (JStr "new") []).
  - exact sample_store_consistent.
  - reflexivity.
Defined.

(** A write that fails is swallowed.  Where the file system refuses the
    write, [save] still returns normally and the map holds the record, but
    the file is as it was: a restart on a store that was in step with its
    file comes back without the record when the chat had none, and with
    the old record when it had one. *)
Theorem refused_write_is_lost (s : PostStorage) (c : Z) (p : PostData) :
  disk s = Refused → in_sync s → well_keyed (_posts s) →
  PostStorage.save c p s = (inr tt, with_posts <[c := p]> s) ∧
  (PostStorage.get c (PostStorage.save c p s).2).1 = inr (Some p) ∧
  (PostStorage.get c
     (PostStorage.__init__ (storage_file (PostStorage.save c p s).2) Refused).2).1
  = inr (_posts s !! c).
Proof.
  intros Hd Hs Hk. rewrite save_run. unfold flushed.
  cbn [with_posts disk]. rewrite Hd.
  split; [done|]. split; [cbn; by rewrite lookup_insert_eq|].
  cbn [snd storage_file with_posts]. rewrite <- Hd. by rewrite init_in_sync.
Qed.

Lemma refused_write_is_lost_witness :
  disk read_only_store = Refused ∧
  (PostStorage.get 7 (PostStorage.save 7 sample_post read_only_store).2).1
    = inr (Some sample_post) ∧
  (PostStorage.get 7
     (PostStorage.__init__
        (storage_file (PostStorage.save 7 sample_post read_only_store).2) Refused).2).1
  = inr None.
Proof.
  split; [reflexivity|].
  destruct (refused_write_is_lost read_only_store 7 sample_post)
    as (_ & Hget & Hlost); [reflexivity|left; reflexivity|exact sample_store_well_keyed|].
  split; [exact Hget|exact Hlost].
Defined.

(** ** Relations kept by whole handlers *)

Global Instance field_rel_po {X} (f : World → X) (Q : X → X → Prop) `{!PreOrder Q} :
  PreOrder (field_rel f Q).
Proof.
  split; [intros w; unfold field_rel; reflexivity|].
  intros a b c H1 H2. unfold field_rel in *. by etransitivity.
Qed.

Global Instance stays_consistent_po : PreOrder stays_consistent.
Proof. split; [by intros s H|]. intros a b c H1 H2 H. by apply H2, H1. Qed.

Global Instance same_record_po (c : Z) : PreOrder (same_record c).
Proof.
  split; [by intros s; unfold same_record|].
  intros a b d H1 H2. unfold same_record in *. congruence.
Qed.

Global Instance no_new_flag_po : PreOrder no_new_flag.
Proof. split; [by intros u k H|]. intros a b c H1 H2 k H. by apply H1, H2. Qed.

Lemma weaken_same {X A} (f : World → X) (Q : X → X → Prop) `{!Reflexive Q}
    (m : M World A) :
  keeps (same f) m → keeps (field_rel f Q) m.
Proof. intros H w. unfold field_rel. rewrite (H w). reflexivity. Qed.

Lemma on_storage_rel {A} (Q : PostStorage → PostStorage → Prop) (m : M PostStorage A) :
  (∀ s, Q s (m s).2) → keeps (field_rel storage Q) (on_storage m).
Proof. intros H w. unfold field_rel. rewrite on_storage_run. apply H. Qed.

Lemma modify_user_rel (Q : gmap string bool → gmap string bool → Prop)
    (g : gmap string bool → gmap string bool) :
  (∀ u, Q u (g u)) → keeps (field_rel user_data Q) (modify (with_user_data g)).
Proof. intros H w. apply H. Qed.

Ltac same_prim :=
  first
    [ apply tg_same; by intros
    | apply on_storage_same; by intros
    | apply modify_same; by intros
    | apply text_attempts_keeps; [apply _|apply text_call_same; by intros]
    | apply generate_image_keeps; [apply _|apply image_call_same; by intros] ].

(** Walks through the body of a handler: [special] deals with the steps
    that touch the observed field, every other step leaves it alone. *)
Ltac walk special :=
  repeat first
    [ special
    | apply weaken_same; [apply _|same_prim]
    | apply keeps_ret; apply _
    | apply keeps_raise; apply _
    | apply keeps_lift; apply _
    | apply keeps_gets; apply _
    | apply keeps_bind; [apply _| |intros ?]
    | apply keeps_try_except; [apply _| |intros ?]
    | apply keeps_try_local; [apply _| |intros ?|intros ? ?]
    | match goal with
      | |- keeps _ (match ?x with _ => _ end) => destruct x
      end
    | progress unfold seek0, query_chat_id, flag, set_flag, pop_flag,
        BotHandlers._send_post_preview, GeminiService.process_news_full,
        GeminiService.shorten_news, GeminiService.generate_image_prompt,
        GeminiService.edit_text_with_instruction ].

Ltac consistent_special :=
  apply on_storage_rel; intros ?; unfold stays_consistent;
  first [ by intros; apply consistent_save
        | by apply consistent_update_text
        | by apply consistent_update_image
        | by apply consistent_delete
        | done ].

Lemma handle_message_consistent (message : option Message) :
  keeps (field_rel storage stays_consistent) (BotHandlers.handle_message message).
Proof.
  unfold BotHandlers.handle_message, BotHandlers._handle_manual_edit_input,
    BotHandlers._handle_ai_edit_input, BotHandlers._handle_image_upload.
  cbv zeta. walk consistent_special.
Qed.

Lemma dict_get_Forall {V} (P : V → Prop) (k : string) (table : list (string * V)) (v : V) :
  Forall (λ kv, P kv.2) table → dict_get k table = Some v → P v.
Proof.
  induction 1 as [|[k' v'] table Hv _ IH]; cbn; [done|].
  destruct (String.eqb k k'); [|exact IH]. by intros [= <-].
Qed.

(** [handle_callback] keeps what the transport calls and every handler in
    the table keep. *)
Lemma handle_callback_keeps (R : World → World → Prop) `{!PreOrder R}
    (query : CallbackQuery) :
  (∀ c, keeps R (tg c)) →
  Forall (λ kv, ∀ q, keeps R (kv.2 q)) BotHandlers.handlers_map →
  keeps R (BotHandlers.handle_callback query).
Proof.
  intros Htg Hall. unfold BotHandlers.handle_callback.
  apply keeps_bind; [done|apply Htg|intros _].
  apply keeps_bind; [done| |intros _].
  { unfold query_chat_id. destruct (cq_message query);
      [by apply keeps_ret|by apply keeps_raise]. }
  destruct (dict_get (cq_data query) BotHandlers.handlers_map) as [handler|] eqn:E;
    [|by apply keeps_ret].
  by apply (dict_get_Forall (λ h, ∀ q, keeps R (h q)) _ _ _ Hall E).
Qed.

Ltac unfold_handlers :=
  unfold BotHandlers._handle_send, BotHandlers._handle_cancel, BotHandlers._handle_edit,
    BotHandlers._handle_edit_image, BotHandlers._handle_edit_text,
    BotHandlers._handle_regenerate_image, BotHandlers._handle_upload_image,
    BotHandlers._handle_ai_edit_text, BotHandlers._handle_manual_edit_text,
    BotHandlers._handle_back_to_preview, BotHandlers._handle_back_to_edit,
    BotHandlers._handle_cancel_operation.

Lemma handle_callback_consistent (query : CallbackQuery) :
  keeps (field_rel storage stays_consistent) (BotHandlers.handle_callback query).
Proof.
  apply handle_callback_keeps; [apply _|intros c; walk fail|].
  unfold BotHandlers.handlers_map.
  repeat (apply Forall_cons; split; [cbn [snd]; intros q; unfold_handlers; cbv zeta;
                                     walk consistent_special|]).
  by apply Forall_nil.
Qed.

Lemma reset_storage_run (s : PostStorage) :
  storage_file s ≠ Unreadable false →
  (present ← gets (λ s, os_path_exists (storage_file s));
   if present : bool then os_remove else mret tt) s
  = (inr tt, with_file Absent s).
Proof. intros H. by destruct s as [[|[|]|data] d m]. Qed.

Lemma reset_command_run (message : Message) (w : World) :
  storage_file (storage w) ≠ Unreadable false →
  storage (BotHandlers.reset_command message w).2
    = {| storage_file := Absent; disk := disk (storage w); _posts := ∅ |} ∧
  user_data (BotHandlers.reset_command message w).2 = ∅.
Proof.
  intros Hf. unfold BotHandlers.reset_command.
  assert (keeps (same storage)
            (tg (reply_text update_message
                   [Lit "✅ Все данные сброшены. Вы можете начать заново."] None)))
    as Hs by keeps_same.
  assert (keeps (same user_data)
            (tg (reply_text update_message
                   [Lit "✅ Все данные сброшены. Вы можете начать заново."] None)))
    as Hu by keeps_same.
  rewrite bind_run, on_storage_run, reset_storage_run by done.
  cbn [fst snd]. rewrite bind_run, on_storage_run.
  cbn [storage with_storage with_file storage_file disk]. rewrite init_absent.
  cbn [fst snd]. rewrite bind_run.
  change (modify (with_user_data (λ _, ∅)) ?w0)
    with (inr () : exn + (), with_user_data (λ _, ∅) w0).
  cbv beta iota. rewrite (Hs _), (Hu _). done.
Qed.

Lemma reset_command_consistent (message : Message) :
  keeps (field_rel storage stays_consistent) (BotHandlers.reset_command message).
Proof.
  intros w Hc. unfold field_rel.
  destruct (reset_command_run message w) as [-> _].
  - destruct Hc as (_ & [Hs|[Hf _]] & _); congruence.
  - destruct Hc as (Hd & _). split; [done|]. split; [right; by split|].
    by intros c p H.
Qed.

Lemma run_events_consistent (es : list event) (w : World) :
  consistent (storage w) → consistent (storage (run_events es w)).
Proof.
  revert w. induction es as [|e es IH]; intros w Hc; [done|].
  cbn [run_events foldl]. apply IH.
  destruct e as [m|q|m]; cbn [dispatch].
  - by apply handle_message_consistent.
  - by apply handle_callback_consistent.
  - by apply reset_command_consistent.
Qed.

(** Whatever the users, the backend and the transport do, a store on a
    file system that takes writes stays consistent: after any sequence of
    messages, button presses and resets starting from a consistent store,
    the snapshot is in step with the map, and a restart at that point
    gives back exactly the store the handlers were working on. *)
Theorem events_keep_store_restorable (es : list event) (w : World) :
  consistent (storage w) →
  consistent (storage (run_events es w)) ∧
  PostStorage.__init__ (storage_file (storage (run_events es w))) Written
  = (inr tt, storage (run_events es w)).
Proof.
  intros Hc. destruct (run_events_consistent es w Hc) as (Hd & Hs & Hk).
  split; [done|]. rewrite <- Hd at 1. by apply init_in_sync.
Qed.

Lemma events_keep_store_restorable_witness :
  consistent (storage fresh_world) ∧
  PostStorage.__init__
    (storage_file (storage (run_events [say "Breaking: X happened"; press "cancel"]
                              fresh_world))) Written
  = (inr tt, storage (run_events [say "Breaking: X happened"; press "cancel"]
                        fresh_world)).
Proof.
  assert (consistent (storage fresh_world)) as Hc.
  { split; [reflexivity|]. split; [right; split; reflexivity|].
    intros c p H. discriminate H. }
  split; [exact Hc|].
  apply (events_keep_store_restorable
           [say "Breaking: X happened"; press "cancel"] fresh_world Hc).
Defined.
